(** * Line-sheet components: ingestion, filtering and pagination

    A shallow embedding of the two React components
    [src/components/client-line-sheet.tsx] and
    [src/components/internal-line-sheet.tsx], together with the JavaScript
    built-ins and the part of papaparse's result they rely on.

    Conventions of the model:
    - a JavaScript string is modelled by the UTF-8 encoding of its text, a
      [string] of bytes; lower-casing and white space follow Unicode (the
      tables are those of version 14.0), on the code points of the string;
    - a JavaScript number that holds a cost or a quantity is a binary64
      [float]; page numbers, ids and lengths are integers far below 2^53
      and are kept in [Z];
    - a row object of papaparse is a [gmap string string]; a missing
      property reads as [None] (JavaScript's [undefined]);
    - React state is a record of the [useState] cells, and every event
      handler is a function on it. *)

From Stdlib Require Import ZArith Floats Ascii String.
From stdpp Require Import gmap strings list.

Local Open Scope Z_scope.

(** ** Unicode data

    The tables of the Unicode Character Database, version 14.0, that
    lower-casing needs: the simple lower-case mappings of UnicodeData.txt and
    the derived properties Cased and Case_Ignorable of
    DerivedCoreProperties.txt. *)
Module Unicode.

Definition inRanges (ranges : list (N * N)) (c : N) : bool :=
  existsb (fun r => (fst r <=? c) && (c <=? snd r))%N ranges.

(** A run [(first, last, step, target)]: every [step]-th code point from
    [first] to [last] has a simple lower-case mapping, [first] to [target]
    and the others at the same distance. *)
Definition inRun (c : N) (run : N * N * N * N) : bool :=
  let '(first, last, step, _) := run in
  ((first <=? c) && (c <=? last) && ((c - first) mod step =? 0))%N.

Definition Lowercase_Mapping_runs : list (N * N * N * N) :=
  [
   (0xC0, 0xD6, 1, 0xE0); (0xD8, 0xDE, 1, 0xF8); (0x100, 0x12E, 2, 0x101);
   (0x132, 0x136, 2, 0x133); (0x139, 0x147, 2, 0x13A); (0x14A, 0x176, 2, 0x14B);
   (0x178, 0x178, 1, 0xFF); (0x179, 0x17D, 2, 0x17A); (0x181, 0x181, 1, 0x253);
   (0x182, 0x184, 2, 0x183); (0x186, 0x186, 1, 0x254); (0x187, 0x187, 1, 0x188);
   (0x189, 0x18A, 1, 0x256); (0x18B, 0x18B, 1, 0x18C); (0x18E, 0x18E, 1, 0x1DD);
   (0x18F, 0x18F, 1, 0x259); (0x190, 0x190, 1, 0x25B); (0x191, 0x191, 1, 0x192);
   (0x193, 0x193, 1, 0x260); (0x194, 0x194, 1, 0x263); (0x196, 0x196, 1, 0x269);
   (0x197, 0x197, 1, 0x268); (0x198, 0x198, 1, 0x199); (0x19C, 0x19C, 1, 0x26F);
   (0x19D, 0x19D, 1, 0x272); (0x19F, 0x19F, 1, 0x275); (0x1A0, 0x1A4, 2, 0x1A1);
   (0x1A6, 0x1A6, 1, 0x280); (0x1A7, 0x1A7, 1, 0x1A8); (0x1A9, 0x1A9, 1, 0x283);
   (0x1AC, 0x1AC, 1, 0x1AD); (0x1AE, 0x1AE, 1, 0x288); (0x1AF, 0x1AF, 1, 0x1B0);
   (0x1B1, 0x1B2, 1, 0x28A); (0x1B3, 0x1B5, 2, 0x1B4); (0x1B7, 0x1B7, 1, 0x292);
   (0x1B8, 0x1B8, 1, 0x1B9); (0x1BC, 0x1BC, 1, 0x1BD); (0x1C4, 0x1C4, 1, 0x1C6);
   (0x1C5, 0x1C5, 1, 0x1C6); (0x1C7, 0x1C7, 1, 0x1C9); (0x1C8, 0x1C8, 1, 0x1C9);
   (0x1CA, 0x1CA, 1, 0x1CC); (0x1CB, 0x1DB, 2, 0x1CC); (0x1DE, 0x1EE, 2, 0x1DF);
   (0x1F1, 0x1F1, 1, 0x1F3); (0x1F2, 0x1F4, 2, 0x1F3); (0x1F6, 0x1F6, 1, 0x195);
   (0x1F7, 0x1F7, 1, 0x1BF); (0x1F8, 0x21E, 2, 0x1F9); (0x220, 0x220, 1, 0x19E);
   (0x222, 0x232, 2, 0x223); (0x23A, 0x23A, 1, 0x2C65); (0x23B, 0x23B, 1, 0x23C);
   (0x23D, 0x23D, 1, 0x19A); (0x23E, 0x23E, 1, 0x2C66); (0x241, 0x241, 1, 0x242);
   (0x243, 0x243, 1, 0x180); (0x244, 0x244, 1, 0x289); (0x245, 0x245, 1, 0x28C);
   (0x246, 0x24E, 2, 0x247); (0x370, 0x372, 2, 0x371); (0x376, 0x376, 1, 0x377);
   (0x37F, 0x37F, 1, 0x3F3); (0x386, 0x386, 1, 0x3AC); (0x388, 0x38A, 1, 0x3AD);
   (0x38C, 0x38C, 1, 0x3CC); (0x38E, 0x38F, 1, 0x3CD); (0x391, 0x3A1, 1, 0x3B1);
   (0x3A3, 0x3AB, 1, 0x3C3); (0x3CF, 0x3CF, 1, 0x3D7); (0x3D8, 0x3EE, 2, 0x3D9);
   (0x3F4, 0x3F4, 1, 0x3B8); (0x3F7, 0x3F7, 1, 0x3F8); (0x3F9, 0x3F9, 1, 0x3F2);
   (0x3FA, 0x3FA, 1, 0x3FB); (0x3FD, 0x3FF, 1, 0x37B); (0x400, 0x40F, 1, 0x450);
   (0x410, 0x42F, 1, 0x430); (0x460, 0x480, 2, 0x461); (0x48A, 0x4BE, 2, 0x48B);
   (0x4C0, 0x4C0, 1, 0x4CF); (0x4C1, 0x4CD, 2, 0x4C2); (0x4D0, 0x52E, 2, 0x4D1);
   (0x531, 0x556, 1, 0x561); (0x10A0, 0x10C5, 1, 0x2D00); (0x10C7, 0x10C7, 1, 0x2D27);
   (0x10CD, 0x10CD, 1, 0x2D2D); (0x13A0, 0x13EF, 1, 0xAB70); (0x13F0, 0x13F5, 1, 0x13F8);
   (0x1C90, 0x1CBA, 1, 0x10D0); (0x1CBD, 0x1CBF, 1, 0x10FD); (0x1E00, 0x1E94, 2, 0x1E01);
   (0x1E9E, 0x1E9E, 1, 0xDF); (0x1EA0, 0x1EFE, 2, 0x1EA1); (0x1F08, 0x1F0F, 1, 0x1F00);
   (0x1F18, 0x1F1D, 1, 0x1F10); (0x1F28, 0x1F2F, 1, 0x1F20); (0x1F38, 0x1F3F, 1, 0x1F30);
   (0x1F48, 0x1F4D, 1, 0x1F40); (0x1F59, 0x1F5F, 2, 0x1F51); (0x1F68, 0x1F6F, 1, 0x1F60);
   (0x1F88, 0x1F8F, 1, 0x1F80); (0x1F98, 0x1F9F, 1, 0x1F90); (0x1FA8, 0x1FAF, 1, 0x1FA0);
   (0x1FB8, 0x1FB9, 1, 0x1FB0); (0x1FBA, 0x1FBB, 1, 0x1F70); (0x1FBC, 0x1FBC, 1, 0x1FB3);
   (0x1FC8, 0x1FCB, 1, 0x1F72); (0x1FCC, 0x1FCC, 1, 0x1FC3); (0x1FD8, 0x1FD9, 1, 0x1FD0);
   (0x1FDA, 0x1FDB, 1, 0x1F76); (0x1FE8, 0x1FE9, 1, 0x1FE0); (0x1FEA, 0x1FEB, 1, 0x1F7A);
   (0x1FEC, 0x1FEC, 1, 0x1FE5); (0x1FF8, 0x1FF9, 1, 0x1F78); (0x1FFA, 0x1FFB, 1, 0x1F7C);
   (0x1FFC, 0x1FFC, 1, 0x1FF3); (0x2126, 0x2126, 1, 0x3C9); (0x212A, 0x212A, 1, 0x6B);
   (0x212B, 0x212B, 1, 0xE5); (0x2132, 0x2132, 1, 0x214E); (0x2160, 0x216F, 1, 0x2170);
   (0x2183, 0x2183, 1, 0x2184); (0x24B6, 0x24CF, 1, 0x24D0); (0x2C00, 0x2C2F, 1, 0x2C30);
   (0x2C60, 0x2C60, 1, 0x2C61); (0x2C62, 0x2C62, 1, 0x26B); (0x2C63, 0x2C63, 1, 0x1D7D);
   (0x2C64, 0x2C64, 1, 0x27D); (0x2C67, 0x2C6B, 2, 0x2C68); (0x2C6D, 0x2C6D, 1, 0x251);
   (0x2C6E, 0x2C6E, 1, 0x271); (0x2C6F, 0x2C6F, 1, 0x250); (0x2C70, 0x2C70, 1, 0x252);
   (0x2C72, 0x2C72, 1, 0x2C73); (0x2C75, 0x2C75, 1, 0x2C76); (0x2C7E, 0x2C7F, 1, 0x23F);
   (0x2C80, 0x2CE2, 2, 0x2C81); (0x2CEB, 0x2CED, 2, 0x2CEC); (0x2CF2, 0x2CF2, 1, 0x2CF3);
   (0xA640, 0xA66C, 2, 0xA641); (0xA680, 0xA69A, 2, 0xA681); (0xA722, 0xA72E, 2, 0xA723);
   (0xA732, 0xA76E, 2, 0xA733); (0xA779, 0xA77B, 2, 0xA77A); (0xA77D, 0xA77D, 1, 0x1D79);
   (0xA77E, 0xA786, 2, 0xA77F); (0xA78B, 0xA78B, 1, 0xA78C); (0xA78D, 0xA78D, 1, 0x265);
   (0xA790, 0xA792, 2, 0xA791); (0xA796, 0xA7A8, 2, 0xA797); (0xA7AA, 0xA7AA, 1, 0x266);
   (0xA7AB, 0xA7AB, 1, 0x25C); (0xA7AC, 0xA7AC, 1, 0x261); (0xA7AD, 0xA7AD, 1, 0x26C);
   (0xA7AE, 0xA7AE, 1, 0x26A); (0xA7B0, 0xA7B0, 1, 0x29E); (0xA7B1, 0xA7B1, 1, 0x287);
   (0xA7B2, 0xA7B2, 1, 0x29D); (0xA7B3, 0xA7B3, 1, 0xAB53); (0xA7B4, 0xA7C2, 2, 0xA7B5);
   (0xA7C4, 0xA7C4, 1, 0xA794); (0xA7C5, 0xA7C5, 1, 0x282); (0xA7C6, 0xA7C6, 1, 0x1D8E);
   (0xA7C7, 0xA7C9, 2, 0xA7C8); (0xA7D0, 0xA7D0, 1, 0xA7D1); (0xA7D6, 0xA7D8, 2, 0xA7D7);
   (0xA7F5, 0xA7F5, 1, 0xA7F6); (0xFF21, 0xFF3A, 1, 0xFF41); (0x10400, 0x10427, 1, 0x10428);
   (0x104B0, 0x104D3, 1, 0x104D8); (0x10570, 0x1057A, 1, 0x10597); (0x1057C, 0x1058A, 1, 0x105A3);
   (0x1058C, 0x10592, 1, 0x105B3); (0x10594, 0x10595, 1, 0x105BB); (0x10C80, 0x10CB2, 1, 0x10CC0);
   (0x118A0, 0x118BF, 1, 0x118C0); (0x16E40, 0x16E5F, 1, 0x16E60); (0x1E900, 0x1E921, 1, 0x1E922)
  ]%N.

Definition Cased_ranges : list (N * N) :=
  [
   (0x41, 0x5A); (0x61, 0x7A); (0xAA, 0xAA); (0xB5, 0xB5); (0xBA, 0xBA); (0xC0, 0xD6);
   (0xD8, 0xF6); (0xF8, 0x1BA); (0x1BC, 0x1BF); (0x1C4, 0x293); (0x295, 0x2B8); (0x2C0, 0x2C1);
   (0x2E0, 0x2E4); (0x345, 0x345); (0x370, 0x373); (0x376, 0x377); (0x37A, 0x37D); (0x37F, 0x37F);
   (0x386, 0x386); (0x388, 0x38A); (0x38C, 0x38C); (0x38E, 0x3A1); (0x3A3, 0x3F5); (0x3F7, 0x481);
   (0x48A, 0x52F); (0x531, 0x556); (0x560, 0x588); (0x10A0, 0x10C5); (0x10C7, 0x10C7); (0x10CD, 0x10CD);
   (0x10D0, 0x10FA); (0x10FD, 0x10FF); (0x13A0, 0x13F5); (0x13F8, 0x13FD); (0x1C80, 0x1C88); (0x1C90, 0x1CBA);
   (0x1CBD, 0x1CBF); (0x1D00, 0x1DBF); (0x1E00, 0x1F15); (0x1F18, 0x1F1D); (0x1F20, 0x1F45); (0x1F48, 0x1F4D);
   (0x1F50, 0x1F57); (0x1F59, 0x1F59); (0x1F5B, 0x1F5B); (0x1F5D, 0x1F5D); (0x1F5F, 0x1F7D); (0x1F80, 0x1FB4);
   (0x1FB6, 0x1FBC); (0x1FBE, 0x1FBE); (0x1FC2, 0x1FC4); (0x1FC6, 0x1FCC); (0x1FD0, 0x1FD3); (0x1FD6, 0x1FDB);
   (0x1FE0, 0x1FEC); (0x1FF2, 0x1FF4); (0x1FF6, 0x1FFC); (0x2071, 0x2071); (0x207F, 0x207F); (0x2090, 0x209C);
   (0x2102, 0x2102); (0x2107, 0x2107); (0x210A, 0x2113); (0x2115, 0x2115); (0x2119, 0x211D); (0x2124, 0x2124);
   (0x2126, 0x2126); (0x2128, 0x2128); (0x212A, 0x212D); (0x212F, 0x2134); (0x2139, 0x2139); (0x213C, 0x213F);
   (0x2145, 0x2149); (0x214E, 0x214E); (0x2160, 0x217F); (0x2183, 0x2184); (0x24B6, 0x24E9); (0x2C00, 0x2CE4);
   (0x2CEB, 0x2CEE); (0x2CF2, 0x2CF3); (0x2D00, 0x2D25); (0x2D27, 0x2D27); (0x2D2D, 0x2D2D); (0xA640, 0xA66D);
   (0xA680, 0xA69D); (0xA722, 0xA787); (0xA78B, 0xA78E); (0xA790, 0xA7CA); (0xA7D0, 0xA7D1); (0xA7D3, 0xA7D3);
   (0xA7D5, 0xA7D9); (0xA7F5, 0xA7F6); (0xA7F8, 0xA7FA); (0xAB30, 0xAB5A); (0xAB5C, 0xAB68); (0xAB70, 0xABBF);
   (0xFB00, 0xFB06); (0xFB13, 0xFB17); (0xFF21, 0xFF3A); (0xFF41, 0xFF5A); (0x10400, 0x1044F); (0x104B0, 0x104D3);
   (0x104D8, 0x104FB); (0x10570, 0x1057A); (0x1057C, 0x1058A); (0x1058C, 0x10592); (0x10594, 0x10595); (0x10597, 0x105A1);
   (0x105A3, 0x105B1); (0x105B3, 0x105B9); (0x105BB, 0x105BC); (0x10780, 0x10780); (0x10783, 0x10785); (0x10787, 0x107B0);
   (0x107B2, 0x107BA); (0x10C80, 0x10CB2); (0x10CC0, 0x10CF2); (0x118A0, 0x118DF); (0x16E40, 0x16E7F); (0x1D400, 0x1D454);
   (0x1D456, 0x1D49C); (0x1D49E, 0x1D49F); (0x1D4A2, 0x1D4A2); (0x1D4A5, 0x1D4A6); (0x1D4A9, 0x1D4AC); (0x1D4AE, 0x1D4B9);
   (0x1D4BB, 0x1D4BB); (0x1D4BD, 0x1D4C3); (0x1D4C5, 0x1D505); (0x1D507, 0x1D50A); (0x1D50D, 0x1D514); (0x1D516, 0x1D51C);
   (0x1D51E, 0x1D539); (0x1D53B, 0x1D53E); (0x1D540, 0x1D544); (0x1D546, 0x1D546); (0x1D54A, 0x1D550); (0x1D552, 0x1D6A5);
   (0x1D6A8, 0x1D6C0); (0x1D6C2, 0x1D6DA); (0x1D6DC, 0x1D6FA); (0x1D6FC, 0x1D714); (0x1D716, 0x1D734); (0x1D736, 0x1D74E);
   (0x1D750, 0x1D76E); (0x1D770, 0x1D788); (0x1D78A, 0x1D7A8); (0x1D7AA, 0x1D7C2); (0x1D7C4, 0x1D7CB); (0x1DF00, 0x1DF09);
   (0x1DF0B, 0x1DF1E); (0x1E900, 0x1E943); (0x1F130, 0x1F149); (0x1F150, 0x1F169); (0x1F170, 0x1F189)
  ]%N.

Definition Case_Ignorable_ranges : list (N * N) :=
  [
   (0x27, 0x27); (0x2E, 0x2E); (0x3A, 0x3A); (0x5E, 0x5E); (0x60, 0x60); (0xA8, 0xA8);
   (0xAD, 0xAD); (0xAF, 0xAF); (0xB4, 0xB4); (0xB7, 0xB8); (0x2B0, 0x36F); (0x374, 0x375);
   (0x37A, 0x37A); (0x384, 0x385); (0x387, 0x387); (0x483, 0x489); (0x559, 0x559); (0x55F, 0x55F);
   (0x591, 0x5BD); (0x5BF, 0x5BF); (0x5C1, 0x5C2); (0x5C4, 0x5C5); (0x5C7, 0x5C7); (0x5F4, 0x5F4);
   (0x600, 0x605); (0x610, 0x61A); (0x61C, 0x61C); (0x640, 0x640); (0x64B, 0x65F); (0x670, 0x670);
   (0x6D6, 0x6DD); (0x6DF, 0x6E8); (0x6EA, 0x6ED); (0x70F, 0x70F); (0x711, 0x711); (0x730, 0x74A);
   (0x7A6, 0x7B0); (0x7EB, 0x7F5); (0x7FA, 0x7FA); (0x7FD, 0x7FD); (0x816, 0x82D); (0x859, 0x85B);
   (0x888, 0x888); (0x890, 0x891); (0x898, 0x89F); (0x8C9, 0x902); (0x93A, 0x93A); (0x93C, 0x93C);
   (0x941, 0x948); (0x94D, 0x94D); (0x951, 0x957); (0x962, 0x963); (0x971, 0x971); (0x981, 0x981);
   (0x9BC, 0x9BC); (0x9C1, 0x9C4); (0x9CD, 0x9CD); (0x9E2, 0x9E3); (0x9FE, 0x9FE); (0xA01, 0xA02);
   (0xA3C, 0xA3C); (0xA41, 0xA42); (0xA47, 0xA48); (0xA4B, 0xA4D); (0xA51, 0xA51); (0xA70, 0xA71);
   (0xA75, 0xA75); (0xA81, 0xA82); (0xABC, 0xABC); (0xAC1, 0xAC5); (0xAC7, 0xAC8); (0xACD, 0xACD);
   (0xAE2, 0xAE3); (0xAFA, 0xAFF); (0xB01, 0xB01); (0xB3C, 0xB3C); (0xB3F, 0xB3F); (0xB41, 0xB44);
   (0xB4D, 0xB4D); (0xB55, 0xB56); (0xB62, 0xB63); (0xB82, 0xB82); (0xBC0, 0xBC0); (0xBCD, 0xBCD);
   (0xC00, 0xC00); (0xC04, 0xC04); (0xC3C, 0xC3C); (0xC3E, 0xC40); (0xC46, 0xC48); (0xC4A, 0xC4D);
   (0xC55, 0xC56); (0xC62, 0xC63); (0xC81, 0xC81); (0xCBC, 0xCBC); (0xCBF, 0xCBF); (0xCC6, 0xCC6);
   (0xCCC, 0xCCD); (0xCE2, 0xCE3); (0xD00, 0xD01); (0xD3B, 0xD3C); (0xD41, 0xD44); (0xD4D, 0xD4D);
   (0xD62, 0xD63); (0xD81, 0xD81); (0xDCA, 0xDCA); (0xDD2, 0xDD4); (0xDD6, 0xDD6); (0xE31, 0xE31);
   (0xE34, 0xE3A); (0xE46, 0xE4E); (0xEB1, 0xEB1); (0xEB4, 0xEBC); (0xEC6, 0xEC6); (0xEC8, 0xECD);
   (0xF18, 0xF19); (0xF35, 0xF35); (0xF37, 0xF37); (0xF39, 0xF39); (0xF71, 0xF7E); (0xF80, 0xF84);
   (0xF86, 0xF87); (0xF8D, 0xF97); (0xF99, 0xFBC); (0xFC6, 0xFC6); (0x102D, 0x1030); (0x1032, 0x1037);
   (0x1039, 0x103A); (0x103D, 0x103E); (0x1058, 0x1059); (0x105E, 0x1060); (0x1071, 0x1074); (0x1082, 0x1082);
   (0x1085, 0x1086); (0x108D, 0x108D); (0x109D, 0x109D); (0x10FC, 0x10FC); (0x135D, 0x135F); (0x1712, 0x1714);
   (0x1732, 0x1733); (0x1752, 0x1753); (0x1772, 0x1773); (0x17B4, 0x17B5); (0x17B7, 0x17BD); (0x17C6, 0x17C6);
   (0x17C9, 0x17D3); (0x17D7, 0x17D7); (0x17DD, 0x17DD); (0x180B, 0x180F); (0x1843, 0x1843); (0x1885, 0x1886);
   (0x18A9, 0x18A9); (0x1920, 0x1922); (0x1927, 0x1928); (0x1932, 0x1932); (0x1939, 0x193B); (0x1A17, 0x1A18);
   (0x1A1B, 0x1A1B); (0x1A56, 0x1A56); (0x1A58, 0x1A5E); (0x1A60, 0x1A60); (0x1A62, 0x1A62); (0x1A65, 0x1A6C);
   (0x1A73, 0x1A7C); (0x1A7F, 0x1A7F); (0x1AA7, 0x1AA7); (0x1AB0, 0x1ACE); (0x1B00, 0x1B03); (0x1B34, 0x1B34);
   (0x1B36, 0x1B3A); (0x1B3C, 0x1B3C); (0x1B42, 0x1B42); (0x1B6B, 0x1B73); (0x1B80, 0x1B81); (0x1BA2, 0x1BA5);
   (0x1BA8, 0x1BA9); (0x1BAB, 0x1BAD); (0x1BE6, 0x1BE6); (0x1BE8, 0x1BE9); (0x1BED, 0x1BED); (0x1BEF, 0x1BF1);
   (0x1C2C, 0x1C33); (0x1C36, 0x1C37); (0x1C78, 0x1C7D); (0x1CD0, 0x1CD2); (0x1CD4, 0x1CE0); (0x1CE2, 0x1CE8);
   (0x1CED, 0x1CED); (0x1CF4, 0x1CF4); (0x1CF8, 0x1CF9); (0x1D2C, 0x1D6A); (0x1D78, 0x1D78); (0x1D9B, 0x1DFF);
   (0x1FBD, 0x1FBD); (0x1FBF, 0x1FC1); (0x1FCD, 0x1FCF); (0x1FDD, 0x1FDF); (0x1FED, 0x1FEF); (0x1FFD, 0x1FFE);
   (0x200B, 0x200F); (0x2018, 0x2019); (0x2024, 0x2024); (0x2027, 0x2027); (0x202A, 0x202E); (0x2060, 0x2064);
   (0x2066, 0x206F); (0x2071, 0x2071); (0x207F, 0x207F); (0x2090, 0x209C); (0x20D0, 0x20F0); (0x2C7C, 0x2C7D);
   (0x2CEF, 0x2CF1); (0x2D6F, 0x2D6F); (0x2D7F, 0x2D7F); (0x2DE0, 0x2DFF); (0x2E2F, 0x2E2F); (0x3005, 0x3005);
   (0x302A, 0x302D); (0x3031, 0x3035); (0x303B, 0x303B); (0x3099, 0x309E); (0x30FC, 0x30FE); (0xA015, 0xA015);
   (0xA4F8, 0xA4FD); (0xA60C, 0xA60C); (0xA66F, 0xA672); (0xA674, 0xA67D); (0xA67F, 0xA67F); (0xA69C, 0xA69F);
   (0xA6F0, 0xA6F1); (0xA700, 0xA721); (0xA770, 0xA770); (0xA788, 0xA78A); (0xA7F2, 0xA7F4); (0xA7F8, 0xA7F9);
   (0xA802, 0xA802); (0xA806, 0xA806); (0xA80B, 0xA80B); (0xA825, 0xA826); (0xA82C, 0xA82C); (0xA8C4, 0xA8C5);
   (0xA8E0, 0xA8F1); (0xA8FF, 0xA8FF); (0xA926, 0xA92D); (0xA947, 0xA951); (0xA980, 0xA982); (0xA9B3, 0xA9B3);
   (0xA9B6, 0xA9B9); (0xA9BC, 0xA9BD); (0xA9CF, 0xA9CF); (0xA9E5, 0xA9E6); (0xAA29, 0xAA2E); (0xAA31, 0xAA32);
   (0xAA35, 0xAA36); (0xAA43, 0xAA43); (0xAA4C, 0xAA4C); (0xAA70, 0xAA70); (0xAA7C, 0xAA7C); (0xAAB0, 0xAAB0);
   (0xAAB2, 0xAAB4); (0xAAB7, 0xAAB8); (0xAABE, 0xAABF); (0xAAC1, 0xAAC1); (0xAADD, 0xAADD); (0xAAEC, 0xAAED);
   (0xAAF3, 0xAAF4); (0xAAF6, 0xAAF6); (0xAB5B, 0xAB5F); (0xAB69, 0xAB6B); (0xABE5, 0xABE5); (0xABE8, 0xABE8);
   (0xABED, 0xABED); (0xFB1E, 0xFB1E); (0xFBB2, 0xFBC2); (0xFE00, 0xFE0F); (0xFE13, 0xFE13); (0xFE20, 0xFE2F);
   (0xFE52, 0xFE52); (0xFE55, 0xFE55); (0xFEFF, 0xFEFF); (0xFF07, 0xFF07); (0xFF0E, 0xFF0E); (0xFF1A, 0xFF1A);
   (0xFF3E, 0xFF3E); (0xFF40, 0xFF40); (0xFF70, 0xFF70); (0xFF9E, 0xFF9F); (0xFFE3, 0xFFE3); (0xFFF9, 0xFFFB);
   (0x101FD, 0x101FD); (0x102E0, 0x102E0); (0x10376, 0x1037A); (0x10780, 0x10785); (0x10787, 0x107B0); (0x107B2, 0x107BA);
   (0x10A01, 0x10A03); (0x10A05, 0x10A06); (0x10A0C, 0x10A0F); (0x10A38, 0x10A3A); (0x10A3F, 0x10A3F); (0x10AE5, 0x10AE6);
   (0x10D24, 0x10D27); (0x10EAB, 0x10EAC); (0x10F46, 0x10F50); (0x10F82, 0x10F85); (0x11001, 0x11001); (0x11038, 0x11046);
   (0x11070, 0x11070); (0x11073, 0x11074); (0x1107F, 0x11081); (0x110B3, 0x110B6); (0x110B9, 0x110BA); (0x110BD, 0x110BD);
   (0x110C2, 0x110C2); (0x110CD, 0x110CD); (0x11100, 0x11102); (0x11127, 0x1112B); (0x1112D, 0x11134); (0x11173, 0x11173);
   (0x11180, 0x11181); (0x111B6, 0x111BE); (0x111C9, 0x111CC); (0x111CF, 0x111CF); (0x1122F, 0x11231); (0x11234, 0x11234);
   (0x11236, 0x11237); (0x1123E, 0x1123E); (0x112DF, 0x112DF); (0x112E3, 0x112EA); (0x11300, 0x11301); (0x1133B, 0x1133C);
   (0x11340, 0x11340); (0x11366, 0x1136C); (0x11370, 0x11374); (0x11438, 0x1143F); (0x11442, 0x11444); (0x11446, 0x11446);
   (0x1145E, 0x1145E); (0x114B3, 0x114B8); (0x114BA, 0x114BA); (0x114BF, 0x114C0); (0x114C2, 0x114C3); (0x115B2, 0x115B5);
   (0x115BC, 0x115BD); (0x115BF, 0x115C0); (0x115DC, 0x115DD); (0x11633, 0x1163A); (0x1163D, 0x1163D); (0x1163F, 0x11640);
   (0x116AB, 0x116AB); (0x116AD, 0x116AD); (0x116B0, 0x116B5); (0x116B7, 0x116B7); (0x1171D, 0x1171F); (0x11722, 0x11725);
   (0x11727, 0x1172B); (0x1182F, 0x11837); (0x11839, 0x1183A); (0x1193B, 0x1193C); (0x1193E, 0x1193E); (0x11943, 0x11943);
   (0x119D4, 0x119D7); (0x119DA, 0x119DB); (0x119E0, 0x119E0); (0x11A01, 0x11A0A); (0x11A33, 0x11A38); (0x11A3B, 0x11A3E);
   (0x11A47, 0x11A47); (0x11A51, 0x11A56); (0x11A59, 0x11A5B); (0x11A8A, 0x11A96); (0x11A98, 0x11A99); (0x11C30, 0x11C36);
   (0x11C38, 0x11C3D); (0x11C3F, 0x11C3F); (0x11C92, 0x11CA7); (0x11CAA, 0x11CB0); (0x11CB2, 0x11CB3); (0x11CB5, 0x11CB6);
   (0x11D31, 0x11D36); (0x11D3A, 0x11D3A); (0x11D3C, 0x11D3D); (0x11D3F, 0x11D45); (0x11D47, 0x11D47); (0x11D90, 0x11D91);
   (0x11D95, 0x11D95); (0x11D97, 0x11D97); (0x11EF3, 0x11EF4); (0x13430, 0x13438); (0x16AF0, 0x16AF4); (0x16B30, 0x16B36);
   (0x16B40, 0x16B43); (0x16F4F, 0x16F4F); (0x16F8F, 0x16F9F); (0x16FE0, 0x16FE1); (0x16FE3, 0x16FE4); (0x1AFF0, 0x1AFF3);
   (0x1AFF5, 0x1AFFB); (0x1AFFD, 0x1AFFE); (0x1BC9D, 0x1BC9E); (0x1BCA0, 0x1BCA3); (0x1CF00, 0x1CF2D); (0x1CF30, 0x1CF46);
   (0x1D167, 0x1D169); (0x1D173, 0x1D182); (0x1D185, 0x1D18B); (0x1D1AA, 0x1D1AD); (0x1D242, 0x1D244); (0x1DA00, 0x1DA36);
   (0x1DA3B, 0x1DA6C); (0x1DA75, 0x1DA75); (0x1DA84, 0x1DA84); (0x1DA9B, 0x1DA9F); (0x1DAA1, 0x1DAAF); (0x1E000, 0x1E006);
   (0x1E008, 0x1E018); (0x1E01B, 0x1E021); (0x1E023, 0x1E024); (0x1E026, 0x1E02A); (0x1E130, 0x1E13D); (0x1E2AE, 0x1E2AE);
   (0x1E2EC, 0x1E2EF); (0x1E8D0, 0x1E8D6); (0x1E944, 0x1E94B); (0x1F3FB, 0x1F3FF); (0xE0001, 0xE0001); (0xE0020, 0xE007F);
   (0xE0100, 0xE01EF)
  ]%N.

(** The simple lower-case mapping of a code point; ASCII is decided without
    the table. *)
Definition simpleLowercase (c : N) : N :=
  if (c <? 0x80)%N then
    if ((0x41 <=? c) && (c <=? 0x5A))%N then (c + 0x20)%N else c
  else
    match find (inRun c) Lowercase_Mapping_runs with
    | Some (first, _, _, target) => (target + (c - first))%N
    | None => c
    end.

Definition isCased (c : N) : bool := inRanges Cased_ranges c.

Definition isCaseIgnorable (c : N) : bool := inRanges Case_Ignorable_ranges c.

End Unicode.

(** ** JavaScript built-ins used by the components *)
Module JS.

Definition code (c : ascii) : N := N_of_ascii c.

(** A capital letter of ASCII. *)
Definition isUpper (c : ascii) : bool := ((65 <=? code c) && (code c <=? 90))%N.

(** *** Strings

    A JavaScript string is modelled by the UTF-8 encoding of its text, so
    that a string literal of this file is the JavaScript string of the same
    text.  Text read from a file or typed into an input has no lone
    surrogates, and on such strings equality, [startsWith] and [includes] on
    UTF-16 code units agree with the same operations on UTF-8 bytes.
    Lower-casing and white space work on code points: [StringToCodePoints]
    and [CodePointsToString] are the conversions of the language
    specification.  A byte that is not part of a well-formed UTF-8 sequence
    is kept as it is. *)
Inductive uchar :=
| Cp (c : N)
| Raw (b : ascii).

Definition isCont (b : ascii) : bool := ((0x80 <=? code b) && (code b <=? 0xBF))%N.

Definition cp2 (b0 b1 : ascii) : N := ((code b0 - 0xC0) * 0x40 + (code b1 - 0x80))%N.

Definition cp3 (b0 b1 b2 : ascii) : N :=
  ((code b0 - 0xE0) * 0x1000 + (code b1 - 0x80) * 0x40 + (code b2 - 0x80))%N.

Definition cp4 (b0 b1 b2 b3 : ascii) : N :=
  ((code b0 - 0xF0) * 0x40000 + (code b1 - 0x80) * 0x1000 + (code b2 - 0x80) * 0x40
   + (code b3 - 0x80))%N.

(** The code points that take three bytes (no surrogates) and four bytes. *)
Definition isScalar3 (c : N) : bool :=
  ((0x800 <=? c) && negb ((0xD800 <=? c) && (c <=? 0xDFFF)))%N.

Definition isScalar4 (c : N) : bool := ((0x10000 <=? c) && (c <=? 0x10FFFF))%N.

Fixpoint StringToCodePoints (s : string) : list uchar :=
  match s with
  | EmptyString => []
  | String b0 s1 =>
      let raw := Raw b0 :: StringToCodePoints s1 in
      if (code b0 <? 0x80)%N then Cp (code b0) :: StringToCodePoints s1
      else
        match s1 with
        | String b1 s2 =>
            if negb (isCont b1) then raw
            else if ((0xC2 <=? code b0) && (code b0 <=? 0xDF))%N
            then Cp (cp2 b0 b1) :: StringToCodePoints s2
            else
              match s2 with
              | String b2 s3 =>
                  if negb (isCont b2) then raw
                  else if ((0xE0 <=? code b0) && (code b0 <=? 0xEF))%N
                  then
                    if isScalar3 (cp3 b0 b1 b2)
                    then Cp (cp3 b0 b1 b2) :: StringToCodePoints s3 else raw
                  else
                    match s3 with
                    | String b3 s4 =>
                        if isCont b3 && (0xF0 <=? code b0)%N
                           && isScalar4 (cp4 b0 b1 b2 b3)
                        then Cp (cp4 b0 b1 b2 b3) :: StringToCodePoints s4 else raw
                    | EmptyString => raw
                    end
              | EmptyString => raw
              end
        | EmptyString => raw
        end
  end.

Definition byte (n : N) : ascii := ascii_of_N n.

Definition encodeCodePoint (u : uchar) : string :=
  match u with
  | Raw b => String b EmptyString
  | Cp c =>
      if (c <? 0x80)%N then String (byte c) EmptyString
      else if (c <? 0x800)%N then
        String (byte (0xC0 + c / 0x40)) (String (byte (0x80 + c mod 0x40)) EmptyString)
      else if (c <? 0x10000)%N then
        String (byte (0xE0 + c / 0x1000))
          (String (byte (0x80 + (c / 0x40) mod 0x40))
             (String (byte (0x80 + c mod 0x40)) EmptyString))
      else
        String (byte (0xF0 + c / 0x40000))
          (String (byte (0x80 + (c / 0x1000) mod 0x40))
             (String (byte (0x80 + (c / 0x40) mod 0x40))
                (String (byte (0x80 + c mod 0x40)) EmptyString)))
  end%N.

Fixpoint CodePointsToString (l : list uchar) : string :=
  match l with
  | [] => EmptyString
  | u :: l' => (encodeCodePoint u +:+ CodePointsToString l')%string
  end.

(** *** Lower case *)

Definition cased (u : uchar) : bool :=
  match u with
  | Cp c => Unicode.isCased c
  | Raw _ => false
  end.

Definition caseIgnorable (u : uchar) : bool :=
  match u with
  | Cp c => Unicode.isCaseIgnorable c
  | Raw _ => false
  end.

(** What follows is zero or more case-ignorable characters and then a cased
    letter. *)
Fixpoint followedByCased (rest : list uchar) : bool :=
  match rest with
  | [] => false
  | u :: rest' => if caseIgnorable u then followedByCased rest' else cased u
  end.

(** The lower-case mapping of one character in its context.  Two code points
    have a mapping of their own (SpecialCasing.txt): capital sigma becomes
    the final sigma when a cased letter precedes it and none follows it
    (case-ignorable characters in between do not count), and the capital I
    with dot above becomes [i] and a combining dot. *)
Definition lowercaseMapping (precededByCased : bool) (u : uchar) (rest : list uchar)
    : list uchar :=
  match u with
  | Raw b => [Raw b]
  | Cp c =>
      if (c =? 0x3A3)%N then
        if precededByCased && negb (followedByCased rest) then [Cp 0x3C2] else [Cp 0x3C3]
      else if (c =? 0x130)%N then [Cp 0x69; Cp 0x307]
      else [Cp (Unicode.simpleLowercase c)]
  end.

(** [toLowercase] of Unicode's default case conversion; [precededByCased]
    says that a cased letter and then only case-ignorable characters come
    before the list. *)
Fixpoint toLowercase (precededByCased : bool) (l : list uchar) : list uchar :=
  match l with
  | [] => []
  | u :: rest =>
      lowercaseMapping precededByCased u rest
      ++ toLowercase (if caseIgnorable u then precededByCased else cased u) rest
  end.

(** [s.toLowerCase()] *)
Definition toLowerCase (s : string) : string :=
  CodePointsToString (toLowercase false (StringToCodePoints s)).

(** The class [\s] of a regular expression, which is also the white space
    that [parseInt] and [parseFloat] skip: TAB, LF, VT, FF, CR, SPACE, the
    no-break space, the other space separators, the line and paragraph
    separators and the byte order mark. *)
Definition isWhiteSpace (c : N) : bool :=
  (((0x09 <=? c) && (c <=? 0x0D)) || (c =? 0x20) || (c =? 0xA0) || (c =? 0x1680)
   || ((0x2000 <=? c) && (c <=? 0x200A)) || (c =? 0x2028) || (c =? 0x2029)
   || (c =? 0x202F) || (c =? 0x205F) || (c =? 0x3000) || (c =? 0xFEFF))%N.

Definition whiteSpace (u : uchar) : bool :=
  match u with
  | Cp c => isWhiteSpace c
  | Raw _ => false
  end.

(** [s.replace(/\s+/g, '')]: every run of white space is replaced by the
    empty string, which leaves the characters that are not white space. *)
Definition removeWhiteSpace (s : string) : string :=
  CodePointsToString (List.filter (fun u => negb (whiteSpace u)) (StringToCodePoints s)).

(** [s.startsWith(p)] *)
Fixpoint startsWith (p s : string) : bool :=
  match p, s with
  | EmptyString, _ => true
  | String a p', String b s' => if Ascii.eqb a b then startsWith p' s' else false
  | String _ _, EmptyString => false
  end.

(** [s.includes(search)] *)
Fixpoint includes (s search : string) : bool :=
  startsWith search s
  || match s with
     | EmptyString => false
     | String _ s' => includes s' search
     end.

(** [a === b] on strings *)
Definition strictEq (a b : string) : bool := String.eqb a b.

(** *** Numbers *)

(** The Number nearest to a natural number (round to nearest, ties to even). *)
Definition N2Number (n : N) : float :=
  SF2Prim (binary_normalize prec emax (Z.of_N n) 0 false).


(** The Number nearest to [m * 10^e], the value of a decimal literal.  For a
    negative exponent the quotient is computed with 64 guard bits and a
    sticky bit, so that the single rounding of [binary_normalize] is the
    rounding of the exact value. *)
Definition decimal2Number (m : N) (e : Z) : float :=
  if (m =? 0)%N then 0%float
  else if 0 <=? e then N2Number (m * 10 ^ Z.to_N e)
  else
    let d := 10 ^ (- e) in
    let k := Z.max 0 (Z.log2 d - Z.log2 (Z.of_N m) + 64) in
    let q := (Z.of_N m * 2 ^ k) / d in
    let sticky := if (Z.of_N m * 2 ^ k) mod d =? 0 then 0 else 1 in
    SF2Prim (binary_normalize prec emax (2 * q + sticky) (- k - 1) false).

(** ToBoolean on a Number: [NaN], [+0] and [-0] are falsy. *)
Definition truthy (x : float) : bool :=
  negb (PrimFloat.eqb x 0 || PrimFloat.is_nan x).

(** [x || 0] on a Number *)
Definition or_zero (x : float) : float := if truthy x then x else 0%float.

(** [v || ''] where [v] is a string property of a row: [undefined] and the
    empty string are falsy. *)
Definition or_empty (v : option string) : string :=
  match v with
  | Some s => if String.eqb s EmptyString then EmptyString else s
  | None => EmptyString
  end.

(** ToString of a row property, as [parseInt] and [parseFloat] apply it to
    their argument. *)
Definition ToString (v : option string) : string :=
  match v with
  | Some s => s
  | None => "undefined"%string
  end.

(** *** Scanning *)

Definition isDigit (c : ascii) : bool := ((48 <=? code c) && (code c <=? 57))%N.

Definition digitValue (c : ascii) : N := (code c - 48)%N.

Definition isHexDigit (c : ascii) : bool :=
  (isDigit c || ((65 <=? code c) && (code c <=? 70))
             || ((97 <=? code c) && (code c <=? 102)))%N.

Definition hexDigitValue (c : ascii) : N :=
  if isDigit c then digitValue c
  else if (code c <=? 70)%N then (code c - 55)%N else (code c - 87)%N.

Fixpoint skipWhiteSpace (l : list uchar) : list uchar :=
  match l with
  | u :: l' => if whiteSpace u then skipWhiteSpace l' else l
  | [] => []
  end.

(** The string without its leading white space, as [parseInt] and
    [parseFloat] read it. *)
Definition trimStart (s : string) : string :=
  CodePointsToString (skipWhiteSpace (StringToCodePoints s)).

(** The longest prefix of decimal digits: its value on top of [acc], the
    number of digits read on top of [cnt], and the rest of the string. *)
Fixpoint digits (acc : N) (cnt : nat) (s : string) : N * nat * string :=
  match s with
  | String c s' =>
      if isDigit c then digits (acc * 10 + digitValue c)%N (S cnt) s' else (acc, cnt, s)
  | EmptyString => (acc, cnt, s)
  end.

Fixpoint hexDigits (acc : N) (cnt : nat) (s : string) : N * nat * string :=
  match s with
  | String c s' =>
      if isHexDigit c then hexDigits (acc * 16 + hexDigitValue c)%N (S cnt) s'
      else (acc, cnt, s)
  | EmptyString => (acc, cnt, s)
  end.

(** An optional sign: [true] for [-]. *)
Definition sign (s : string) : bool * string :=
  match s with
  | String c s' =>
      if Ascii.eqb c "-" then (true, s')
      else if Ascii.eqb c "+" then (false, s') else (false, s)
  | EmptyString => (false, s)
  end.

Definition applySign (neg : bool) (x : float) : float :=
  if neg then (- x)%float else x.

(** *** parseInt *)

(** [parseInt(s)] before the conversion to a Number: the sign and the
    mathematical value of the digits, or [None] where [parseInt] gives
    [NaN].  The radix is 10, or 16 after a [0x] prefix. *)
Definition parseIntMath (input : string) : option (bool * N) :=
  let '(neg, s1) := sign (trimStart input) in
  let '(v, cnt, _) :=
    match s1 with
    | String c0 (String c1 s2) =>
        if Ascii.eqb c0 "0" && (Ascii.eqb c1 "x" || Ascii.eqb c1 "X")
        then hexDigits 0 0 s2 else digits 0 0 s1
    | _ => digits 0 0 s1
    end in
  match cnt with
  | O => None
  | S _ => Some (neg, v)
  end.

Definition parseInt (input : string) : float :=
  match parseIntMath input with
  | None => nan
  | Some (neg, v) => applySign neg (N2Number v)
  end.

(** *** parseFloat *)

(** The exponent part [e±ddd] at the head of [s], or 0 when there is none
    (an [e] without digits is not part of the literal). *)
Definition exponentPart (s : string) : Z :=
  match s with
  | String c s' =>
      if Ascii.eqb c "e" || Ascii.eqb c "E" then
        let '(neg, s'') := sign s' in
        let '(v, cnt, _) := digits 0 0 s'' in
        match cnt with
        | O => 0
        | S _ => if neg then - Z.of_N v else Z.of_N v
        end
      else 0
  | EmptyString => 0
  end.

(** [parseFloat(s)]: the longest prefix of the trimmed string that is a
    decimal literal ([Infinity], [ddd], [ddd.ddd], [.ddd], each with an
    optional sign and exponent), or [NaN] when there is none. *)
Definition parseFloat (input : string) : float :=
  let '(neg, s1) := sign (trimStart input) in
  if startsWith "Infinity" s1 then applySign neg infinity
  else
    let '(ip, ni, s2) := digits 0 0 s1 in
    match s2 with
    | String c s3 =>
        if Ascii.eqb c "." then
          let '(m, nf, s4) := digits ip 0 s3 in
          match ni, nf with
          | O, O => nan
          | _, _ => applySign neg (decimal2Number m (exponentPart s4 - Z.of_nat nf))
          end
        else
          match ni with
          | O => nan
          | S _ => applySign neg (decimal2Number ip (exponentPart s2))
          end
    | EmptyString =>
        match ni with
        | O => nan
        | S _ => applySign neg (decimal2Number ip 0)
        end
    end.

(** *** Arrays and Math *)

(** [l.slice(start, end)]: a negative index counts from the end of the
    array, and both indices are clamped to the array. *)
Definition slice {A} (l : list A) (start end_ : Z) : list A :=
  let len := Z.of_nat (length l) in
  let k := if start <? 0 then Z.max (len + start) 0 else Z.min start len in
  let final := if end_ <? 0 then Z.max (len + end_) 0 else Z.min end_ len in
  take (Z.to_nat (Z.max (final - k) 0)) (drop (Z.to_nat k) l).

(** [Math.ceil(n / d)] for an array length [n] and a page size [d]: the
    quotient of two integers below 2^32 is rounded nowhere near an integer
    it does not equal, so the result is the ceiling of the exact quotient. *)
Definition ceilDiv (n d : Z) : Z := - ((- n) / d).

End JS.

(** ** The header transform handed to papaparse by both components *)

(** [transformHeader: (header) => header.toLowerCase().replace(/\s+/g, '')] *)
Definition transformHeader (header : string) : string :=
  JS.removeWhiteSpace (JS.toLowerCase header).

(** ** papaparse, as far as the components use it

    papaparse is a dependency of the repository; the model follows its
    documented behaviour for [Papa.parse(file, {header: true, skipEmptyLines:
    true, transformHeader, complete})].  Splitting the text into lines and
    cells (delimiter guessing, quoting) is not modelled: a file is given by
    its header line, its non-empty data lines and the errors that splitting
    reported. *)
Module Papa.

Record File := {
  header : list string;
  records : list (list string);
  tokenErrors : list string
}.

Record ParseResult := {
  data : list (gmap string string);
  errors : list string
}.

(** The object of one data line: [row[fields[j]] = cells[j]], assigned from
    left to right. *)
Definition rowObject (fields cells : list string) : gmap string string :=
  foldl (fun row kv => <[kv.1 := kv.2]> row) ∅ (zip fields cells).

(** A data line with fewer or more cells than the header is reported. *)
Definition fieldMismatch (n : nat) (cells : list string) : list string :=
  if (length cells <? n)%nat then ["TooFewFields"%string]
  else if (n <? length cells)%nat then ["TooManyFields"%string]
  else [].

Definition parse (transform : string -> string) (file : File) : ParseResult :=
  let fields := map transform (header file) in
  {| data := map (rowObject fields) (records file);
     errors := tokenErrors file
               ++ concat (map (fieldMismatch (length fields)) (records file)) |}.

End Papa.

(** The message both components show when parsing fails. *)
Definition parseErrorMessage : string :=
  "Error parsing CSV file. Please check the file format.".

(** ** The client component, [client-line-sheet.tsx] *)
Module Client.

Record ClientLineSheetItem := {
  id : Z;
  name : string;
  balance : float;
  minOrderQuantity : float;
  sampleLeadTime : string;
  bulkLeadTime : string;
  status : string;
  sizes : string;
  fabricMaterial : string;
  category : string;
  imageUrl : string
}.

Inductive ViewMode := grid | table.

(** The [useState] cells of the component. *)
Record State := {
  items : list ClientLineSheetItem;
  currentPage : Z;
  searchTerm : string;
  statusFilter : string;
  categoryFilter : string;
  viewMode : ViewMode;
  error : option string
}.

Definition initial : State :=
  {| items := []; currentPage := 1; searchTerm := ""; statusFilter := "All";
     categoryFilter := "All"; viewMode := grid; error := None |}.

Definition itemsPerPage : Z := 9.

Definition setItems (v : list ClientLineSheetItem) (s : State) : State :=
  {| items := v; currentPage := currentPage s; searchTerm := searchTerm s;
     statusFilter := statusFilter s; categoryFilter := categoryFilter s;
     viewMode := viewMode s; error := error s |}.

Definition setCurrentPage (v : Z) (s : State) : State :=
  {| items := items s; currentPage := v; searchTerm := searchTerm s;
     statusFilter := statusFilter s; categoryFilter := categoryFilter s;
     viewMode := viewMode s; error := error s |}.

Definition setSearchTerm (v : string) (s : State) : State :=
  {| items := items s; currentPage := currentPage s; searchTerm := v;
     statusFilter := statusFilter s; categoryFilter := categoryFilter s;
     viewMode := viewMode s; error := error s |}.

Definition setStatusFilter (v : string) (s : State) : State :=
  {| items := items s; currentPage := currentPage s; searchTerm := searchTerm s;
     statusFilter := v; categoryFilter := categoryFilter s;
     viewMode := viewMode s; error := error s |}.

Definition setCategoryFilter (v : string) (s : State) : State :=
  {| items := items s; currentPage := currentPage s; searchTerm := searchTerm s;
     statusFilter := statusFilter s; categoryFilter := v;
     viewMode := viewMode s; error := error s |}.

Definition setViewMode (v : ViewMode) (s : State) : State :=
  {| items := items s; currentPage := currentPage s; searchTerm := searchTerm s;
     statusFilter := statusFilter s; categoryFilter := categoryFilter s;
     viewMode := v; error := error s |}.

Definition setError (v : option string) (s : State) : State :=
  {| items := items s; currentPage := currentPage s; searchTerm := searchTerm s;
     statusFilter := statusFilter s; categoryFilter := categoryFilter s;
     viewMode := viewMode s; error := v |}.

(** The callback of [result.data.map((row, index) => ...)].  It reads
    properties of an object, calls [parseInt] and [parseFloat] on a string or
    on [undefined], and uses [||]: none of these can throw, so the callback
    is a function. *)
Definition coerce (index : nat) (row : gmap string string) : ClientLineSheetItem :=
  {| id := Z.of_nat index + 1;
     name := JS.or_empty (row !! "name"%string);
     balance := JS.or_zero (JS.parseFloat (JS.ToString (row !! "balance"%string)));
     minOrderQuantity :=
       JS.or_zero (JS.parseInt (JS.ToString (row !! "minOrderQuantity"%string)));
     sampleLeadTime := JS.or_empty (row !! "sampleLeadTime"%string);
     bulkLeadTime := JS.or_empty (row !! "bulkLeadTime"%string);
     status := JS.or_empty (row !! "status"%string);
     sizes := JS.or_empty (row !! "sizes"%string);
     fabricMaterial := JS.or_empty (row !! "fabricMaterial"%string);
     category := JS.or_empty (row !! "category"%string);
     imageUrl := JS.or_empty (row !! "imageUrl"%string) |}.

(** The [complete] callback of [Papa.parse]. *)
Definition complete (result : Papa.ParseResult) (s : State) : State :=
  if (0 <? length (Papa.errors result))%nat then
    setError (Some parseErrorMessage) s
  else
    let parsedData := imap coerce (Papa.data result) in
    setError None (setItems parsedData s).

Definition onDrop (acceptedFiles : list Papa.File) (s : State) : State :=
  match acceptedFiles with
  | file :: _ => complete (Papa.parse transformHeader file) s
  | [] => s
  end.

Definition matches (s : State) (item : ClientLineSheetItem) : bool :=
  JS.includes (JS.toLowerCase (name item)) (JS.toLowerCase (searchTerm s))
  && (JS.strictEq (statusFilter s) "All" || JS.strictEq (status item) (statusFilter s))
  && (JS.strictEq (categoryFilter s) "All"
      || JS.strictEq (category item) (categoryFilter s)).

Definition filteredItems (s : State) : list ClientLineSheetItem :=
  List.filter (matches s) (items s).

Definition totalPages (s : State) : Z :=
  JS.ceilDiv (Z.of_nat (length (filteredItems s))) itemsPerPage.

Definition startIndex (s : State) : Z := (currentPage s - 1) * itemsPerPage.

Definition displayedItems (s : State) : list ClientLineSheetItem :=
  JS.slice (filteredItems s) (startIndex s) (startIndex s + itemsPerPage).

(** The two numbers of "Showing X-Y of Z items". *)
Definition showing (s : State) : Z * Z :=
  (startIndex s + 1,
   Z.min (startIndex s + itemsPerPage) (Z.of_nat (length (filteredItems s)))).

(** The page buttons are rendered when [totalPages > 1]; a button that is
    not rendered or is disabled does nothing. *)
Definition prevClick (s : State) : State :=
  if (1 <? totalPages s) && negb (currentPage s =? 1)
  then setCurrentPage (Z.max (currentPage s - 1) 1) s else s.

Definition nextClick (s : State) : State :=
  if (1 <? totalPages s) && negb (currentPage s =? totalPages s)
  then setCurrentPage (Z.min (currentPage s + 1) (totalPages s)) s else s.

Inductive Event :=
| Drop (acceptedFiles : list Papa.File)
| Search (value : string)
| SelectCategory (value : string)
| SelectStatus (value : string)
| SelectView (value : ViewMode)
| PrevPage
| NextPage.

Definition handle (e : Event) (s : State) : State :=
  match e with
  | Drop acceptedFiles => onDrop acceptedFiles s
  | Search value => setSearchTerm value s
  | SelectCategory value => setCategoryFilter value s
  | SelectStatus value => setStatusFilter value s
  | SelectView value => setViewMode value s
  | PrevPage => prevClick s
  | NextPage => nextClick s
  end.

Definition run (es : list Event) (s : State) : State :=
  foldl (fun s e => handle e s) s es.

Inductive reachable : State -> Prop :=
| reach_initial : reachable initial
| reach_handle s e : reachable s -> reachable (handle e s).

End Client.

(** ** The internal component, [internal-line-sheet.tsx] *)
Module Internal.

Record InternalLineSheetItem := {
  id : Z;
  name : string;
  minOrderQuantity : float;
  sampleCost : float;
  productionCost : float;
  factoryCost : float;
  shipping : string;
  sampleLeadTime : string;
  bulkLeadTime : string;
  status : string;
  note : string;
  sizes : string;
  fabricMaterial : string;
  category : string;
  imageUrl : string;
  alibabaUrl : string
}.

Record State := {
  items : list InternalLineSheetItem;
  currentPage : Z;
  searchTerm : string;
  statusFilter : string;
  categoryFilter : string;
  error : option string
}.

Definition initial : State :=
  {| items := []; currentPage := 1; searchTerm := ""; statusFilter := "All";
     categoryFilter := "All"; error := None |}.

Definition itemsPerPage : Z := 10.

Definition setItems (v : list InternalLineSheetItem) (s : State) : State :=
  {| items := v; currentPage := currentPage s; searchTerm := searchTerm s;
     statusFilter := statusFilter s; categoryFilter := categoryFilter s;
     error := error s |}.

Definition setCurrentPage (v : Z) (s : State) : State :=
  {| items := items s; currentPage := v; searchTerm := searchTerm s;
     statusFilter := statusFilter s; categoryFilter := categoryFilter s;
     error := error s |}.

Definition setSearchTerm (v : string) (s : State) : State :=
  {| items := items s; currentPage := currentPage s; searchTerm := v;
     statusFilter := statusFilter s; categoryFilter := categoryFilter s;
     error := error s |}.

Definition setStatusFilter (v : string) (s : State) : State :=
  {| items := items s; currentPage := currentPage s; searchTerm := searchTerm s;
     statusFilter := v; categoryFilter := categoryFilter s; error := error s |}.

Definition setCategoryFilter (v : string) (s : State) : State :=
  {| items := items s; currentPage := currentPage s; searchTerm := searchTerm s;
     statusFilter := statusFilter s; categoryFilter := v; error := error s |}.

Definition setError (v : option string) (s : State) : State :=
  {| items := items s; currentPage := currentPage s; searchTerm := searchTerm s;
     statusFilter := statusFilter s; categoryFilter := categoryFilter s;
     error := v |}.

(** The callback of [result.data.map((row, index) => ...)]; as in the client
    component, nothing in it can throw. *)
Definition coerce (index : nat) (row : gmap string string) : InternalLineSheetItem :=
  {| id := Z.of_nat index + 1;
     name := JS.or_empty (row !! "name"%string);
     minOrderQuantity :=
       JS.or_zero (JS.parseInt (JS.ToString (row !! "minOrderQuantity"%string)));
     sampleCost := JS.or_zero (JS.parseFloat (JS.ToString (row !! "sampleCost"%string)));
     productionCost :=
       JS.or_zero (JS.parseFloat (JS.ToString (row !! "productionCost"%string)));
     factoryCost := JS.or_zero (JS.parseFloat (JS.ToString (row !! "factoryCost"%string)));
     shipping := JS.or_empty (row !! "shipping"%string);
     sampleLeadTime := JS.or_empty (row !! "sampleLeadTime"%string);
     bulkLeadTime := JS.or_empty (row !! "bulkLeadTime"%string);
     status := JS.or_empty (row !! "status"%string);
     note := JS.or_empty (row !! "note"%string);
     sizes := JS.or_empty (row !! "sizes"%string);
     fabricMaterial := JS.or_empty (row !! "fabricMaterial"%string);
     category := JS.or_empty (row !! "category"%string);
     imageUrl := JS.or_empty (row !! "imageUrl"%string);
     alibabaUrl := JS.or_empty (row !! "alibabaUrl"%string) |}.

(** The [complete] callback of [Papa.parse]. *)
Definition complete (result : Papa.ParseResult) (s : State) : State :=
  if (0 <? length (Papa.errors result))%nat then
    setError (Some parseErrorMessage) s
  else
    let parsedData := imap coerce (Papa.data result) in
    setError None (setItems parsedData s).

Definition onDrop (acceptedFiles : list Papa.File) (s : State) : State :=
  match acceptedFiles with
  | file :: _ => complete (Papa.parse transformHeader file) s
  | [] => s
  end.

Definition matches (s : State) (item : InternalLineSheetItem) : bool :=
  JS.includes (JS.toLowerCase (name item)) (JS.toLowerCase (searchTerm s))
  && (JS.strictEq (statusFilter s) "All" || JS.strictEq (status item) (statusFilter s))
  && (JS.strictEq (categoryFilter s) "All"
      || JS.strictEq (category item) (categoryFilter s)).

Definition filteredItems (s : State) : list InternalLineSheetItem :=
  List.filter (matches s) (items s).

Definition totalPages (s : State) : Z :=
  JS.ceilDiv (Z.of_nat (length (filteredItems s))) itemsPerPage.

Definition startIndex (s : State) : Z := (currentPage s - 1) * itemsPerPage.

Definition displayedItems (s : State) : list InternalLineSheetItem :=
  JS.slice (filteredItems s) (startIndex s) (startIndex s + itemsPerPage).

Definition showing (s : State) : Z * Z :=
  (startIndex s + 1,
   Z.min (startIndex s + itemsPerPage) (Z.of_nat (length (filteredItems s)))).

(** [factoryCost === 0] holds for [+0] and [-0] and fails for [NaN]. *)
Definition calculateMargin (productionCost factoryCost : float) : float :=
  if PrimFloat.eqb factoryCost 0 then 0%float
  else (((productionCost - factoryCost) / factoryCost) * 100)%float.

Definition prevClick (s : State) : State :=
  if (1 <? totalPages s) && negb (currentPage s =? 1)
  then setCurrentPage (Z.max (currentPage s - 1) 1) s else s.

Definition nextClick (s : State) : State :=
  if (1 <? totalPages s) && negb (currentPage s =? totalPages s)
  then setCurrentPage (Z.min (currentPage s + 1) (totalPages s)) s else s.

Inductive Event :=
| Drop (acceptedFiles : list Papa.File)
| Search (value : string)
| SelectCategory (value : string)
| SelectStatus (value : string)
| PrevPage
| NextPage.

Definition handle (e : Event) (s : State) : State :=
  match e with
  | Drop acceptedFiles => onDrop acceptedFiles s
  | Search value => setSearchTerm value s
  | SelectCategory value => setCategoryFilter value s
  | SelectStatus value => setStatusFilter value s
  | PrevPage => prevClick s
  | NextPage => nextClick s
  end.

Definition run (es : list Event) (s : State) : State :=
  foldl (fun s e => handle e s) s es.

Inductive reachable : State -> Prop :=
| reach_initial : reachable initial
| reach_handle s e : reachable s -> reachable (handle e s).

End Internal.

(** ** The rest of what the components render *)

(** [new Set(values)] followed by [Array.from]: a set of strings keeps its
    elements in insertion order, and adding an element it has changes
    nothing. *)
Module JSSet.

Definition has (set : list string) (x : string) : bool := existsb (String.eqb x) set.

Definition add (set : list string) (x : string) : list string :=
  if has set x then set else set ++ [x].

Definition new (values : list string) : list string := foldl add [] values.

End JSSet.

(** [src/components/ui/badge.tsx] *)
Module Badge.

Inductive Variant := default | secondary.

Definition variantClasses (variant : Variant) : string :=
  match variant with
  | default => "bg-primary text-primary-foreground"
  | secondary => "bg-secondary text-secondary-foreground"
  end.

Definition baseClasses : string :=
  "inline-flex items-center rounded-full border px-2.5 py-0.5 text-xs font-semibold transition-colors focus:outline-none focus:ring-2 focus:ring-ring focus:ring-offset-2".

(** The [className] of the rendered [div]: a template literal of the base
    classes, [variantClasses[variant]] (the variant defaults to [default])
    and the [className] prop, which is spliced in as it is. *)
Definition className (variant : option Variant) (className : option string) : string :=
  let variant := match variant with Some v => v | None => default end in
  (baseClasses +:+ " " +:+ variantClasses variant +:+ " " +:+ JS.ToString className)%string.

End Badge.

Module ClientView.

(** [Array.from(new Set(items.map(item => item.category)))] *)
Definition categories (s : Client.State) : list string :=
  JSSet.new (map Client.category (Client.items s)).

Definition statuses (s : Client.State) : list string :=
  JSSet.new (map Client.status (Client.items s)).

(** [<Badge variant={item.status === "In Production" ? "default" : "secondary"}>] *)
Definition statusBadge (item : Client.ClientLineSheetItem) : string :=
  Badge.className
    (Some (if JS.strictEq (Client.status item) "In Production"
           then Badge.default else Badge.secondary))
    None.

(** [item.balance > 0], the test under which the balance is shown (the table
    shows N/A otherwise, the grid shows nothing). *)
Definition balanceShown (item : Client.ClientLineSheetItem) : bool :=
  PrimFloat.ltb 0 (Client.balance item).

(** [item.bulkLeadTime || 'N/A'] *)
Definition bulkLeadTimeText (item : Client.ClientLineSheetItem) : string :=
  if String.eqb (Client.bulkLeadTime item) EmptyString then "N/A"%string
  else Client.bulkLeadTime item.

End ClientView.

Module InternalView.

Definition categories (s : Internal.State) : list string :=
  JSSet.new (map Internal.category (Internal.items s)).

Definition statuses (s : Internal.State) : list string :=
  JSSet.new (map Internal.status (Internal.items s)).

Definition statusBadge (item : Internal.InternalLineSheetItem) : string :=
  Badge.className
    (Some (if JS.strictEq (Internal.status item) "In Production"
           then Badge.default else Badge.secondary))
    None.

(** [calculateMargin(item.productionCost, item.factoryCost)], the margin
    cell before [toFixed(2)]. *)
Definition marginCell (item : Internal.InternalLineSheetItem) : float :=
  Internal.calculateMargin (Internal.productionCost item) (Internal.factoryCost item).

(** [item.bulkLeadTime || 'N/A'] *)
Definition bulkLeadTimeText (item : Internal.InternalLineSheetItem) : string :=
  if String.eqb (Internal.bulkLeadTime item) EmptyString then "N/A"%string
  else Internal.bulkLeadTime item.

(** [item.alibabaUrl && <a ...>Link</a>]: the link is rendered for a
    non-empty URL. *)
Definition alibabaLinkShown (item : Internal.InternalLineSheetItem) : bool :=
  negb (String.eqb (Internal.alibabaUrl item) EmptyString).

End InternalView.

(** ** Sample uploads *)

(** Twelve products, seven tops and five bottoms, with headers written the
    way a spreadsheet exports them. *)
Definition sampleFile : Papa.File :=
  {| Papa.header := ["Name"; "Category"; "Status"; "Min Order Quantity"; "Balance"]%string;
     Papa.records :=
       map (fun n => [n; "Tops"; "In Production"; "12"; "250.50"]%string)
         ["Oxford Shirt"; "Linen Shirt"; "Polo"; "Tank Top"; "Henley"; "Hoodie";
          "Crew Tee"]%string
       ++ map (fun n => [n; "Bottoms"; "Sampling"; "40"; "0"]%string)
         ["Chino"; "Jogger"; "Denim Short"; "Cargo Pant"; "Legging"]%string;
     Papa.tokenErrors := [] |}.

(** An upload whose second data line ends inside a quoted cell. *)
Definition brokenFile : Papa.File :=
  {| Papa.header := ["Name"; "Category"]%string;
     Papa.records := [["Oxford Shirt"; "Tops"]; ["Linen Shirt"]]%string;
     Papa.tokenErrors := ["MissingQuotes"%string] |}.

(** An upload of one product whose quantity column is headed [h]. *)
Definition quantityUpload (h : string) : Papa.File :=
  {| Papa.header := ["Name"%string; h];
     Papa.records := [["Oxford Shirt"; "12"]%string];
     Papa.tokenErrors := [] |}.

(** Three products whose names are not ASCII. *)
Definition unicodeFile : Papa.File :=
  {| Papa.header := ["Name"; "Category"]%string;
     Papa.records := [["CAFÉ Tee"; "Tops"]; ["ΑΣ"; "Tops"]; ["ΟΔΟΣ Α"; "Tops"]]%string;
     Papa.tokenErrors := [] |}.


(** ** Words of the specification

    The definitions below follow the wording of the specification; the
    properties compare them with the code above. *)

(** A string of ASCII characters. *)
Fixpoint isAscii (s : string) : bool :=
  match s with
  | EmptyString => true
  | String c s' => (JS.code c <? 0x80)%N && isAscii s'
  end.

(** Lower case and white space within ASCII, character by character. *)
Definition asciiLowerChar (c : ascii) : ascii :=
  if JS.isUpper c then ascii_of_N (JS.code c + 32) else c.

Fixpoint asciiLowerCase (s : string) : string :=
  match s with
  | EmptyString => EmptyString
  | String c s' => String (asciiLowerChar c) (asciiLowerCase s')
  end.

Definition asciiWhiteSpace (c : ascii) : bool := JS.isWhiteSpace (JS.code c).

(** Two ASCII headers differ only in case or white space: they can be
    aligned character by character, skipping white space on either side and
    matching letters up to case. *)
Inductive same_header : string -> string -> Prop :=
| same_nil : same_header EmptyString EmptyString
| same_skip_l c s t :
    asciiWhiteSpace c = true -> same_header s t -> same_header (String c s) t
| same_skip_r c s t :
    asciiWhiteSpace c = true -> same_header s t -> same_header s (String c t)
| same_char c d s t :
    asciiLowerChar c = asciiLowerChar d -> same_header s t ->
    same_header (String c s) (String d t).

(** [name] contains [term] as a substring up to the case of letters: a
    substring of [name] has the lower case of [term]. *)
Definition contains_ignoring_case (name term : string) : Prop :=
  exists pre mid post,
    name = (pre +:+ mid +:+ post)%string /\ JS.toLowerCase mid = JS.toLowerCase term.

(** The lower case of [name] contains the lower case of [term]. *)
Definition lower_contains (name term : string) : Prop :=
  exists pre post,
    JS.toLowerCase name = (pre +:+ JS.toLowerCase term +:+ post)%string.

(** The three conditions of the Filter Engine for a record with the given
    name, category and status. *)
Definition selected (searchTerm categoryFilter statusFilter : string)
    (name category status : string) : Prop :=
  lower_contains name searchTerm
  /\ (categoryFilter = "All"%string \/ category = categoryFilter)
  /\ (statusFilter = "All"%string \/ status = statusFilter).

Definition client_selected (s : Client.State) (item : Client.ClientLineSheetItem) : Prop :=
  selected (Client.searchTerm s) (Client.categoryFilter s) (Client.statusFilter s)
    (Client.name item) (Client.category item) (Client.status item).

Definition internal_selected (s : Internal.State)
    (item : Internal.InternalLineSheetItem) : Prop :=
  selected (Internal.searchTerm s) (Internal.categoryFilter s) (Internal.statusFilter s)
    (Internal.name item) (Internal.category item) (Internal.status item).

(** A cell is absent, or holds a value that [parse] does not take for a
    number. *)
Definition absent_or_unparsable (parse : string -> float) (cell : option string) : Prop :=
  match cell with
  | None => True
  | Some v => PrimFloat.is_nan (parse v) = true
  end.







(** The string has a capital letter, as every camel-case property name
    has. *)
Fixpoint hasUpper (s : string) : bool :=
  match s with
  | EmptyString => false
  | String c s' => JS.isUpper c || hasUpper s'
  end.

(** The ASCII string has a white-space character. *)
Fixpoint hasWhiteSpace (s : string) : bool :=
  match s with
  | EmptyString => false
  | String c s' => asciiWhiteSpace c || hasWhiteSpace s'
  end.

(** A character that is a code point of Unicode or a byte outside ASCII. *)
Definition wellFormedChar (u : JS.uchar) : bool :=
  match u with
  | JS.Cp c => (c <=? 0x10FFFF)%N
  | JS.Raw b => (0x80 <=? JS.code b)%N
  end.

(** Such a character that is not an ASCII capital. *)
Definition noCapital (u : JS.uchar) : bool :=
  match u with
  | JS.Cp c => ((c <=? 0x10FFFF) && negb ((0x41 <=? c) && (c <=? 0x5A)))%N
  | JS.Raw b => (0x80 <=? JS.code b)%N
  end.

(** The first occurrences of a list of strings, in order: the head, then
    the first occurrences of the rest without the head. *)
Fixpoint first_occurrences (l : list string) : list string :=
  match l with
  | [] => []
  | x :: l' => x :: List.filter (fun y => negb (String.eqb x y)) (first_occurrences l')
  end.

(** * Properties *)

(** ** Bytes and code points *)

Lemma code_byte n : (n < 256)%N -> JS.code (JS.byte n) = n.
Proof. apply N_ascii_embedding. Qed.

Lemma byte_code b : JS.byte (JS.code b) = b.
Proof. apply ascii_N_embedding. Qed.

Lemma code_bound b : (JS.code b < 256)%N.
Proof. apply N_ascii_bounded. Qed.

Lemma isCont_spec b : JS.isCont b = true <-> (0x80 <= JS.code b <= 0xBF)%N.
Proof. unfold JS.isCont. rewrite andb_true_iff, !N.leb_le. reflexivity. Qed.

(** Induction along the way [StringToCodePoints] reads a string: one ASCII
    byte, a well-formed sequence of two, three or four bytes, or a byte that
    belongs to none. *)
Lemma StringToCodePoints_ind (P : string -> list JS.uchar -> Prop) :
  P EmptyString [] ->
  (forall b s, (JS.code b < 0x80)%N ->
     P s (JS.StringToCodePoints s) ->
     P (String b s) (JS.Cp (JS.code b) :: JS.StringToCodePoints s)) ->
  (forall b0 b1 s,
     (0xC2 <= JS.code b0 <= 0xDF)%N -> (0x80 <= JS.code b1 <= 0xBF)%N ->
     P s (JS.StringToCodePoints s) ->
     P (String b0 (String b1 s)) (JS.Cp (JS.cp2 b0 b1) :: JS.StringToCodePoints s)) ->
  (forall b0 b1 b2 s,
     (0xE0 <= JS.code b0 <= 0xEF)%N -> (0x80 <= JS.code b1 <= 0xBF)%N ->
     (0x80 <= JS.code b2 <= 0xBF)%N -> JS.isScalar3 (JS.cp3 b0 b1 b2) = true ->
     P s (JS.StringToCodePoints s) ->
     P (String b0 (String b1 (String b2 s)))
       (JS.Cp (JS.cp3 b0 b1 b2) :: JS.StringToCodePoints s)) ->
  (forall b0 b1 b2 b3 s,
     (0xF0 <= JS.code b0)%N -> (0x80 <= JS.code b1 <= 0xBF)%N ->
     (0x80 <= JS.code b2 <= 0xBF)%N -> (0x80 <= JS.code b3 <= 0xBF)%N ->
     JS.isScalar4 (JS.cp4 b0 b1 b2 b3) = true ->
     P s (JS.StringToCodePoints s) ->
     P (String b0 (String b1 (String b2 (String b3 s))))
       (JS.Cp (JS.cp4 b0 b1 b2 b3) :: JS.StringToCodePoints s)) ->
  (forall b s, (0x80 <= JS.code b)%N ->
     P s (JS.StringToCodePoints s) ->
     P (String b s) (JS.Raw b :: JS.StringToCodePoints s)) ->
  forall s, P s (JS.StringToCodePoints s).
Proof.
  intros Hnil Hascii H2 H3 H4 Hraw.
  assert (Hall : forall n s, (String.length s < n)%nat -> P s (JS.StringToCodePoints s)).
  { induction n as [|n IH]; intros s Hlen; [lia|].
    destruct s as [|b0 s1]; [exact Hnil|].
    assert (IH1 : P s1 (JS.StringToCodePoints s1)) by (apply IH; simpl in Hlen; lia).
    cbn [JS.StringToCodePoints].
    destruct (N.ltb_spec (JS.code b0) 0x80) as [Ha|Ha]; [apply Hascii; assumption|].
    destruct s1 as [|b1 s2]; [apply Hraw; assumption|].
    destruct (JS.isCont b1) eqn:C1; simpl negb; cbv iota;
      [apply isCont_spec in C1 | apply Hraw; assumption].
    assert (IH2 : P s2 (JS.StringToCodePoints s2)) by (apply IH; simpl in Hlen; lia).
    destruct (N.leb_spec 0xC2 (JS.code b0)) as [Hb|Hb];
      destruct (N.leb_spec (JS.code b0) 0xDF) as [Hc|Hc]; simpl andb; cbv iota;
      try (apply H2; [lia | lia | exact IH2]); try (exfalso; lia).
    - destruct s2 as [|b2 s3]; [apply Hraw; assumption|].
      destruct (JS.isCont b2) eqn:C2; simpl negb; cbv iota;
        [apply isCont_spec in C2 | apply Hraw; assumption].
      assert (IH3 : P s3 (JS.StringToCodePoints s3)) by (apply IH; simpl in Hlen; lia).
      destruct (N.leb_spec 0xE0 (JS.code b0)) as [Hd|Hd]; [|lia].
      destruct (N.leb_spec (JS.code b0) 0xEF) as [He|He]; simpl andb; cbv iota.
      + destruct (JS.isScalar3 (JS.cp3 b0 b1 b2)) eqn:S3;
          [apply H3; try assumption; lia | apply Hraw; assumption].
      + destruct s3 as [|b3 s4]; [apply Hraw; assumption|].
        destruct (JS.isCont b3) eqn:C3; simpl andb; cbv iota;
          [apply isCont_spec in C3 | apply Hraw; assumption].
        destruct (N.leb_spec 0xF0 (JS.code b0)) as [Hf|Hf]; [|lia]. simpl andb.
        destruct (JS.isScalar4 (JS.cp4 b0 b1 b2 b3)) eqn:S4;
          [|apply Hraw; assumption].
        apply H4; try assumption. apply IH. simpl in Hlen. lia.
    - destruct s2 as [|b2 s3]; [apply Hraw; assumption|].
      destruct (JS.isCont b2) eqn:C2; simpl negb; cbv iota; [|apply Hraw; assumption].
      destruct (N.leb_spec 0xE0 (JS.code b0)) as [Hd|Hd]; [lia|]. simpl andb. cbv iota.
      destruct s3 as [|b3 s4]; [apply Hraw; assumption|].
      destruct (JS.isCont b3); simpl andb; cbv iota; [|apply Hraw; assumption].
      destruct (N.leb_spec 0xF0 (JS.code b0)) as [Hf|Hf]; [lia|]. simpl andb. cbv iota.
      apply Hraw; assumption. }
  intros s. apply (Hall (S (String.length s))). lia.
Qed.



(** ** ASCII text *)

Lemma isAscii_app a b : isAscii (a +:+ b) = isAscii a && isAscii b.
Proof.
  induction a as [|c a IH]; [reflexivity|].
  change (isAscii (String c (a +:+ b)) = isAscii (String c a) && isAscii b).
  simpl. rewrite IH, andb_assoc. reflexivity.
Qed.

Lemma asciiLowerChar_ascii c : (JS.code c < 0x80)%N -> (JS.code (asciiLowerChar c) < 0x80)%N.
Proof.
  destruct c as [[] [] [] [] [] [] [] []]; vm_compute; intros H; try discriminate H;
    reflexivity.
Qed.

Lemma asciiWhiteSpace_lower c : asciiWhiteSpace (asciiLowerChar c) = asciiWhiteSpace c.
Proof. destruct c as [[] [] [] [] [] [] [] []]; reflexivity. Qed.

Lemma isAscii_asciiLowerCase s : isAscii s = true -> isAscii (asciiLowerCase s) = true.
Proof.
  induction s as [|c s IH]; [reflexivity|]. simpl. rewrite !andb_true_iff, !N.ltb_lt.
  intros [Hc Hs]. split; [apply asciiLowerChar_ascii, Hc | apply IH, Hs].
Qed.

Lemma lowercaseMapping_ascii st b rest :
  (JS.code b < 0x80)%N ->
  JS.lowercaseMapping st (JS.Cp (JS.code b)) rest = [JS.Cp (JS.code (asciiLowerChar b))].
Proof.
  intros Hb. unfold JS.lowercaseMapping, Unicode.simpleLowercase.
  destruct (N.eqb_spec (JS.code b) 0x3A3) as [E|_]; [lia|].
  destruct (N.eqb_spec (JS.code b) 0x130) as [E|_]; [lia|].
  apply N.ltb_lt in Hb. rewrite Hb. unfold asciiLowerChar, JS.isUpper.
  destruct (_ && _)%N eqn:Hu; [|reflexivity].
  rewrite code_byte; [reflexivity|].
  apply andb_true_iff in Hu as [_ Hu]. apply N.leb_le in Hu. lia.
Qed.

(** On ASCII text lower-casing works character by character. *)
Lemma toLowercase_ascii st s :
  isAscii s = true ->
  JS.CodePointsToString (JS.toLowercase st (JS.StringToCodePoints s)) = asciiLowerCase s.
Proof.
  revert st. induction s as [|b s IH]; intros st Hs; [reflexivity|].
  simpl in Hs. apply andb_true_iff in Hs as [Hb Hs].
  cbn [JS.StringToCodePoints]. rewrite Hb. apply N.ltb_lt in Hb.
  cbn [JS.toLowercase]. rewrite lowercaseMapping_ascii by exact Hb.
  cbn [app JS.CodePointsToString JS.encodeCodePoint].
  pose proof (asciiLowerChar_ascii b Hb) as Hl. apply N.ltb_lt in Hl.
  rewrite Hl, byte_code, IH by exact Hs. reflexivity.
Qed.

Lemma toLowerCase_ascii s : isAscii s = true -> JS.toLowerCase s = asciiLowerCase s.
Proof. apply toLowercase_ascii. Qed.

Lemma removeWhiteSpace_cons_ascii c s :
  (JS.code c < 0x80)%N ->
  JS.removeWhiteSpace (String c s)
  = if asciiWhiteSpace c then JS.removeWhiteSpace s else String c (JS.removeWhiteSpace s).
Proof.
  intros Hc. unfold JS.removeWhiteSpace. cbn [JS.StringToCodePoints].
  apply N.ltb_lt in Hc. rewrite Hc. cbn [List.filter JS.whiteSpace].
  fold (asciiWhiteSpace c). destruct (asciiWhiteSpace c); simpl negb; cbv iota;
    [reflexivity|].
  cbn [JS.CodePointsToString JS.encodeCodePoint]. rewrite Hc, byte_code. reflexivity.
Qed.

Lemma transformHeader_cons c s :
  isAscii (String c s) = true ->
  transformHeader (String c s) =
  if asciiWhiteSpace c then transformHeader s
  else String (asciiLowerChar c) (transformHeader s).
Proof.
  intros H. pose proof H as H'. simpl in H'. apply andb_true_iff in H' as [Hc Hs].
  apply N.ltb_lt in Hc. unfold transformHeader.
  rewrite (toLowerCase_ascii _ H), (toLowerCase_ascii _ Hs). simpl asciiLowerCase.
  rewrite removeWhiteSpace_cons_ascii by (apply asciiLowerChar_ascii, Hc).
  rewrite asciiWhiteSpace_lower. reflexivity.
Qed.

Lemma isAscii_cons c s : isAscii (String c s) = true -> isAscii s = true.
Proof. simpl. rewrite andb_true_iff. tauto. Qed.

Lemma transformHeader_same a b :
  isAscii a = true -> isAscii b = true ->
  same_header a b -> transformHeader a = transformHeader b.
Proof.
  intros Ha Hb H. induction H as [|c s t Hc _ IH|c s t Hc _ IH|c d s t Hcd _ IH].
  - reflexivity.
  - rewrite transformHeader_cons, Hc by exact Ha. apply IH; [exact (isAscii_cons _ _ Ha) | exact Hb].
  - rewrite (transformHeader_cons c t), Hc by exact Hb.
    apply IH; [exact Ha | exact (isAscii_cons _ _ Hb)].
  - rewrite !transformHeader_cons by assumption.
    rewrite <- (asciiWhiteSpace_lower c), <- (asciiWhiteSpace_lower d), Hcd.
    rewrite (IH (isAscii_cons _ _ Ha) (isAscii_cons _ _ Hb)). reflexivity.
Qed.

Lemma same_header_refl s : same_header s s.
Proof. induction s; [constructor | constructor 4; auto]. Qed.

Lemma same_header_sym a b : same_header a b -> same_header b a.
Proof. induction 1; [constructor | constructor 3 | constructor 2 | constructor 4]; auto. Qed.

(** ASCII headers get the same key exactly when they differ only in case or
    white space. *)
Lemma transformHeader_same_iff a b :
  isAscii a = true -> isAscii b = true ->
  (same_header a b <-> transformHeader a = transformHeader b).
Proof.
  intros Ha Hb. split; [apply transformHeader_same; assumption|].
  revert b Hb. induction a as [|c s IHa]; intros b Hb.
  - induction b as [|d t IHb]; [constructor|].
    rewrite transformHeader_cons by exact Hb.
    destruct (asciiWhiteSpace d) eqn:Hd; [|discriminate].
    intros E. constructor 3; [exact Hd|]. apply IHb; [exact (isAscii_cons _ _ Hb) | exact E].
  - rewrite transformHeader_cons by exact Ha. destruct (asciiWhiteSpace c) eqn:Hc.
    + intros E. constructor 2; [exact Hc|].
      apply IHa; [exact (isAscii_cons _ _ Ha) | exact Hb | exact E].
    + induction b as [|d t IHb]; [discriminate|].
      rewrite transformHeader_cons by exact Hb. destruct (asciiWhiteSpace d) eqn:Hd.
      * intros E. constructor 3; [exact Hd|].
        apply IHb; [exact (isAscii_cons _ _ Hb) | exact E].
      * intros E. injection E as E1 E2. constructor 4; [exact E1|].
        apply IHa; [exact (isAscii_cons _ _ Ha) | exact (isAscii_cons _ _ Hb) | exact E2].
Qed.

(** Beyond ASCII the key also depends on where the white space stood: a
    capital sigma before a space is lower-cased as a final sigma. *)
Example transformHeader_final_sigma :
  transformHeader "ΟΔΟΣ Α" = "οδοςα"%string
  /\ transformHeader "ΟΔΟΣΑ" = "οδοσα"%string
  /\ transformHeader "É Prix" = "éprix"%string
  /\ JS.StringToCodePoints (transformHeader "İd") = [JS.Cp 0x69; JS.Cp 0x307; JS.Cp 0x64].
Proof. repeat split; vm_compute; reflexivity. Qed.

(** ** Filtering *)

Section FilterFacts.
Context {A : Type} (f : A -> bool).

Lemma filter_twice (l : list A) : List.filter f (List.filter f l) = List.filter f l.
Proof.
  induction l as [|x l IH]; simpl; [reflexivity|].
  destruct (f x) eqn:Hx; simpl; [rewrite Hx, IH|]; auto.
Qed.

Lemma filter_is_sublist (l : list A) : sublist (List.filter f l) l.
Proof.
  induction l as [|x l IH]; simpl; [constructor|].
  destruct (f x); [apply sublist_skip | apply sublist_cons]; exact IH.
Qed.

(** Every subsequence whose elements all pass the test is a subsequence of
    the filtered list. *)
Lemma filter_largest (k l : list A) :
  sublist k l -> (forall x, In x k -> f x = true) -> sublist k (List.filter f l).
Proof.
  induction 1 as [|x k l _ IH|x k l _ IH]; intros Hk; simpl.
  - constructor.
  - rewrite (Hk x) by (left; reflexivity).
    apply sublist_skip, IH. intros y Hy. apply Hk. right. exact Hy.
  - destruct (f x); [apply sublist_cons|]; apply IH, Hk.
Qed.

End FilterFacts.

(** ** Substring search *)

Lemma startsWith_spec p s :
  JS.startsWith p s = true <-> exists post, s = (p +:+ post)%string.
Proof.
  revert s. induction p as [|a p IH]; intros s; simpl.
  - split; [intros _; exists s; reflexivity | reflexivity].
  - destruct s as [|b s].
    + split; [discriminate | intros [post E]; discriminate].
    + destruct (Ascii.eqb_spec a b) as [->|Hab].
      * rewrite IH. split; intros [post E]; exists post; [rewrite E | injection E]; auto.
      * split; [discriminate | intros [post E]; injection E; congruence].
Qed.

Lemma includes_spec s t :
  JS.includes s t = true <-> exists pre post, s = (pre +:+ t +:+ post)%string.
Proof.
  induction s as [|c s IH]; simpl; rewrite orb_true_iff, startsWith_spec.
  - split.
    + intros [[post E]|H]; [|discriminate]. exists EmptyString, post. exact E.
    + intros [[|c pre] [post E]]; [left; exists post; exact E | discriminate].
  - rewrite IH. split.
    + intros [[post E]|[pre [post E]]].
      * exists EmptyString, post. exact E.
      * exists (String c pre), post. simpl. rewrite E. reflexivity.
    + intros [[|d pre] [post E]].
      * left. exists post. exact E.
      * right. injection E as _ E. exists pre, post. exact E.
Qed.

Lemma asciiLowerCase_app a b :
  asciiLowerCase (a +:+ b) = (asciiLowerCase a +:+ asciiLowerCase b)%string.
Proof.
  induction a as [|c a IH]; [reflexivity|].
  change (String (asciiLowerChar c) (asciiLowerCase (a +:+ b))
          = String (asciiLowerChar c) (asciiLowerCase a +:+ asciiLowerCase b)).
  rewrite IH. reflexivity.
Qed.

Lemma asciiLowerCase_split s a b :
  asciiLowerCase s = (a +:+ b)%string ->
  exists a0 b0, s = (a0 +:+ b0)%string /\ asciiLowerCase a0 = a /\ asciiLowerCase b0 = b.
Proof.
  revert s. induction a as [|c a IH]; intros s E.
  - exists EmptyString, s. auto.
  - destruct s as [|d s]; [discriminate|].
    change (String (asciiLowerChar d) (asciiLowerCase s) = String c (a +:+ b)) in E.
    injection E as Ec E.
    destruct (IH s E) as (a0 & b0 & -> & Ha & Hb).
    exists (String d a0), b0. simpl. rewrite Ec, Ha. auto.
Qed.

Lemma search_matches name term :
  JS.includes (JS.toLowerCase name) (JS.toLowerCase term) = true
  <-> lower_contains name term.
Proof. apply includes_spec. Qed.

Lemma search_empty name : JS.includes (JS.toLowerCase name) (JS.toLowerCase "") = true.
Proof.
  change (JS.toLowerCase "") with EmptyString.
  destruct (JS.toLowerCase name); reflexivity.
Qed.

Lemma strictEq_spec a b : JS.strictEq a b = true <-> a = b.
Proof. apply String.eqb_eq. Qed.

Lemma lower_contains_empty name : lower_contains name "".
Proof. apply search_matches, search_empty. Qed.

(** Within ASCII the search is containment up to the case of letters. *)
Lemma lower_contains_ascii name term :
  isAscii name = true -> isAscii term = true ->
  (lower_contains name term <-> contains_ignoring_case name term).
Proof.
  intros Hn Ht. unfold lower_contains, contains_ignoring_case. split.
  - intros (pre & post & E).
    rewrite (toLowerCase_ascii _ Hn), (toLowerCase_ascii _ Ht) in E.
    apply asciiLowerCase_split in E as (pre0 & rest & -> & Hpre & E).
    apply asciiLowerCase_split in E as (mid & post0 & -> & Hmid & Hpost).
    exists pre0, mid, post0. split; [reflexivity|].
    rewrite !isAscii_app, !andb_true_iff in Hn. destruct Hn as (_ & Hm & _).
    rewrite (toLowerCase_ascii _ Hm), (toLowerCase_ascii _ Ht). exact Hmid.
  - intros (pre & mid & post & -> & Hmid).
    pose proof Hn as Hn'. rewrite !isAscii_app, !andb_true_iff in Hn'.
    destruct Hn' as (Hp & Hm & Hq).
    exists (asciiLowerCase pre), (asciiLowerCase post).
    rewrite (toLowerCase_ascii _ Hn), !asciiLowerCase_app.
    rewrite <- (toLowerCase_ascii _ Hm), Hmid. reflexivity.
Qed.

Lemma client_matches_spec s item :
  Client.matches s item = true <-> client_selected s item.
Proof.
  unfold Client.matches, client_selected, selected.
  rewrite !andb_true_iff, !orb_true_iff, !strictEq_spec, search_matches. tauto.
Qed.

Lemma internal_matches_spec s item :
  Internal.matches s item = true <-> internal_selected s item.
Proof.
  unfold Internal.matches, internal_selected, selected.
  rewrite !andb_true_iff, !orb_true_iff, !strictEq_spec, search_matches. tauto.
Qed.

(** C5, as the code has it. In both variants the filtered list is an
    ordered subsequence of the loaded records; it holds exactly the records
    for which the lower case of the name contains the lower case of the
    search term, and whose category and status equal their filter unless the
    filter is "All"; it is the largest such subsequence.  The empty search
    term is contained in every name, and between ASCII strings the search
    condition is containment up to the case of letters. *)
Theorem filter_engine_exact :
  (forall name, lower_contains name "")
  /\ (forall name term,
        isAscii name = true -> isAscii term = true ->
        (lower_contains name term <-> contains_ignoring_case name term))
  /\ (forall s,
        sublist (Client.filteredItems s) (Client.items s)
        /\ (forall item, In item (Client.filteredItems s)
                         <-> In item (Client.items s) /\ client_selected s item)
        /\ (forall k, sublist k (Client.items s) ->
                      (forall item, In item k -> client_selected s item) ->
                      sublist k (Client.filteredItems s)))
  /\ (forall s,
        sublist (Internal.filteredItems s) (Internal.items s)
        /\ (forall item, In item (Internal.filteredItems s)
                         <-> In item (Internal.items s) /\ internal_selected s item)
        /\ (forall k, sublist k (Internal.items s) ->
                      (forall item, In item k -> internal_selected s item) ->
                      sublist k (Internal.filteredItems s))).
Proof.
  split; [exact lower_contains_empty|]. split; [exact lower_contains_ascii|].
  split; intros s.
  - unfold Client.filteredItems. split; [apply filter_is_sublist|]. split.
    + intros item. rewrite filter_In, client_matches_spec. reflexivity.
    + intros k Hk Hall. apply filter_largest; [exact Hk|].
      intros x Hx. apply client_matches_spec, Hall, Hx.
  - unfold Internal.filteredItems. split; [apply filter_is_sublist|]. split.
    + intros item. rewrite filter_In, internal_matches_spec. reflexivity.
    + intros k Hk Hall. apply filter_largest; [exact Hk|].
      intros x Hx. apply internal_matches_spec, Hall, Hx.
Qed.

Lemma filter_engine_exact_witness :
  let s := Client.run [Client.Drop [sampleFile]; Client.SelectCategory "Tops";
                       Client.Search "SHIRT"] Client.initial in
  (lower_contains "Oxford Shirt" "SHIRT" <-> contains_ignoring_case "Oxford Shirt" "SHIRT")
  /\ sublist (Client.filteredItems s) (Client.items s)
  /\ sublist (take 1 (Client.items s)) (Client.filteredItems s).
Proof.
  intros s.
  split; [apply (proj1 (proj2 filter_engine_exact)); reflexivity|].
  destruct (proj1 (proj2 (proj2 filter_engine_exact)) s) as (Hsub & _ & Hmax).
  split; [exact Hsub|]. apply Hmax.
  - apply sublist_take.
  - intros item [<-|[]]. apply client_matches_spec. vm_compute. reflexivity.
Defined.

(** C5, as the specification words it, fails: the name "ΑΣ" contains the
    search term "Σ", letter for letter, and both filters are on "All", yet
    the record is not in the filtered list, in either variant.  At the end
    of the name the capital sigma is lower-cased to the final sigma, which
    the lower case of the term on its own is not. *)
Lemma filter_misses_final_sigma :
  JS.toLowerCase "ΑΣ" = "ας"%string /\ JS.toLowerCase "Σ" = "σ"%string
  /\ contains_ignoring_case "ΑΣ" "Σ"
  /\ (let s := Client.run [Client.Drop [unicodeFile]; Client.Search "Σ"] Client.initial in
      map Client.name (Client.items s) = ["CAFÉ Tee"; "ΑΣ"; "ΟΔΟΣ Α"]%string
      /\ Client.categoryFilter s = "All"%string /\ Client.statusFilter s = "All"%string
      /\ Client.filteredItems s = [])
  /\ (let s := Internal.run [Internal.Drop [unicodeFile]; Internal.Search "Σ"]
                 Internal.initial in
      map Internal.name (Internal.items s) = ["CAFÉ Tee"; "ΑΣ"; "ΟΔΟΣ Α"]%string
      /\ Internal.categoryFilter s = "All"%string
      /\ Internal.statusFilter s = "All"%string
      /\ Internal.filteredItems s = []).
Proof.
  split; [vm_compute; reflexivity|]. split; [vm_compute; reflexivity|]. split.
  - exists "Α"%string, "Σ"%string, ""%string. split; reflexivity.
  - split; repeat split; vm_compute; reflexivity.
Qed.

Example filter_samples :
  let s := Client.run [Client.Drop [sampleFile]; Client.SelectCategory "Tops";
                       Client.Search "SHIRT"] Client.initial in
  let u := Client.run [Client.Drop [unicodeFile]] Client.initial in
  map Client.name (Client.filteredItems s) = ["Oxford Shirt"; "Linen Shirt"]%string
  /\ map Client.name
       (Client.filteredItems (Client.handle (Client.SelectCategory "tops") s)) = []
  /\ length (Client.filteredItems (Client.handle (Client.Search "") s)) = 7%nat
  /\ map Client.name (Client.filteredItems (Client.handle (Client.Search "café") u))
     = ["CAFÉ Tee"]%string
  /\ map Client.name (Client.filteredItems (Client.handle (Client.Search "ς") u))
     = ["ΑΣ"; "ΟΔΟΣ Α"]%string
  /\ map Client.name (Client.filteredItems (Client.handle (Client.Search "Σ Α") u)) = [].
Proof. repeat split; vm_compute; reflexivity. Qed.

(** C9. Filtering is idempotent: with the filtered list installed as the
    record set and the same search term and filters, the Filter Engine
    returns that list again. *)
Theorem filter_idempotent :
  (forall s, Client.filteredItems (Client.setItems (Client.filteredItems s) s)
             = Client.filteredItems s)
  /\ (forall s, Internal.filteredItems (Internal.setItems (Internal.filteredItems s) s)
                = Internal.filteredItems s).
Proof.
  split; intros s.
  - unfold Client.filteredItems at 1. simpl.
    change (Client.matches (Client.setItems (Client.filteredItems s) s))
      with (Client.matches s).
    apply filter_twice.
  - unfold Internal.filteredItems at 1. simpl.
    change (Internal.matches (Internal.setItems (Internal.filteredItems s) s))
      with (Internal.matches s).
    apply filter_twice.
Qed.

(** ** Pagination *)

Lemma ceilDiv_spec n d :
  0 < d -> d * (JS.ceilDiv n d - 1) < n <= d * JS.ceilDiv n d.
Proof.
  intros Hd. unfold JS.ceilDiv.
  pose proof (Z.div_mod (- n) d) as E. pose proof (Z.mod_pos_bound (- n) d Hd) as B.
  nia.
Qed.

Lemma ceilDiv_unique n d k : 0 < d -> d * (k - 1) < n <= d * k -> JS.ceilDiv n d = k.
Proof. intros Hd Hk. pose proof (ceilDiv_spec n d Hd). nia. Qed.

Section SliceFacts.
Context {A : Type}.

Lemma take_min_length (l : list A) (n : nat) : take (n `min` length l) l = take n l.
Proof.
  destruct (Nat.le_gt_cases n (length l)) as [H|H].
  - rewrite Nat.min_l by exact H. reflexivity.
  - rewrite Nat.min_r by lia. rewrite !take_ge by lia. reflexivity.
Qed.

(** A page: for a start inside or after the array, [slice] is the usual
    window of [size] elements after [start]. *)
Lemma slice_window (l : list A) (start size : Z) :
  0 <= start -> 0 <= size ->
  JS.slice l start (start + size) = take (Z.to_nat size) (drop (Z.to_nat start) l).
Proof.
  intros Hs Hp. unfold JS.slice.
  destruct (Z.ltb_spec start 0) as [?|_]; [lia|].
  destruct (Z.ltb_spec (start + size) 0) as [?|_]; [lia|].
  destruct (Z.le_gt_cases (Z.of_nat (length l)) start) as [Hout|Hin].
  - rewrite !drop_ge by lia. rewrite !take_nil. reflexivity.
  - rewrite (Z.min_l start) by lia.
    rewrite <- (take_min_length (drop (Z.to_nat start) l) (Z.to_nat size)).
    f_equal. rewrite length_drop. lia.
Qed.

Lemma slice_window_lookup (l : list A) (start size i : Z) :
  0 <= start -> start <= i < start + size ->
  JS.slice l start (start + size) !! Z.to_nat (i - start) = l !! Z.to_nat i.
Proof.
  intros Hs Hi. rewrite slice_window by lia.
  rewrite lookup_take_lt by lia. rewrite lookup_drop. f_equal. lia.
Qed.

Lemma slice_window_length (l : list A) (start size : Z) :
  0 <= start -> 0 <= size ->
  Z.of_nat (length (JS.slice l start (start + size)))
  = Z.max 0 (Z.min (start + size) (Z.of_nat (length l)) - start).
Proof.
  intros Hs Hp. rewrite slice_window by lia. rewrite length_take, length_drop. lia.
Qed.

End SliceFacts.

(** C6. With a 1-based page number, the displayed items are the elements of
    the filtered list at the indices [(currentPage-1)*pageSize] up to, not
    including, [currentPage*pageSize] (page size 9 for the client, 10 for the
    internal variant); the page count is the ceiling of the filtered count
    over the page size, so it is 0 with nothing to display for an empty
    filtered list; and the displayed range runs from [startIndex+1] to
    [min(startIndex+pageSize, filteredCount)]. *)
Theorem paginator_contract :
  (forall s, 1 <= Client.currentPage s ->
     let n := Z.of_nat (length (Client.filteredItems s)) in
     let lo := (Client.currentPage s - 1) * 9 in
     let hi := Client.currentPage s * 9 in
     (forall i, lo <= i < hi ->
        Client.displayedItems s !! Z.to_nat (i - lo)
        = Client.filteredItems s !! Z.to_nat i)
     /\ Z.of_nat (length (Client.displayedItems s)) = Z.max 0 (Z.min hi n - lo)
     /\ 9 * (Client.totalPages s - 1) < n <= 9 * Client.totalPages s
     /\ (n = 0 -> Client.totalPages s = 0 /\ Client.displayedItems s = [])
     /\ Client.showing s = (lo + 1, Z.min (lo + 9) n))
  /\ (forall s, 1 <= Internal.currentPage s ->
     let n := Z.of_nat (length (Internal.filteredItems s)) in
     let lo := (Internal.currentPage s - 1) * 10 in
     let hi := Internal.currentPage s * 10 in
     (forall i, lo <= i < hi ->
        Internal.displayedItems s !! Z.to_nat (i - lo)
        = Internal.filteredItems s !! Z.to_nat i)
     /\ Z.of_nat (length (Internal.displayedItems s)) = Z.max 0 (Z.min hi n - lo)
     /\ 10 * (Internal.totalPages s - 1) < n <= 10 * Internal.totalPages s
     /\ (n = 0 -> Internal.totalPages s = 0 /\ Internal.displayedItems s = [])
     /\ Internal.showing s = (lo + 1, Z.min (lo + 10) n)).
Proof.
  split; intros s Hcp n lo hi.
  - assert (Hlen : Z.of_nat (length (Client.displayedItems s)) = Z.max 0 (Z.min hi n - lo)).
    { unfold Client.displayedItems, Client.startIndex, Client.itemsPerPage.
      rewrite slice_window_length by lia. subst n lo hi. lia. }
    split; [|split; [exact Hlen|split; [|split]]].
    + intros i Hi. unfold Client.displayedItems, Client.startIndex, Client.itemsPerPage.
      apply slice_window_lookup; subst lo hi; lia.
    + apply (ceilDiv_spec n 9). lia.
    + intros Hn. split.
      * unfold Client.totalPages, Client.itemsPerPage. fold n. rewrite Hn. reflexivity.
      * apply length_zero_iff_nil. subst lo hi. lia.
    + reflexivity.
  - assert (Hlen : Z.of_nat (length (Internal.displayedItems s)) = Z.max 0 (Z.min hi n - lo)).
    { unfold Internal.displayedItems, Internal.startIndex, Internal.itemsPerPage.
      rewrite slice_window_length by lia. subst n lo hi. lia. }
    split; [|split; [exact Hlen|split; [|split]]].
    + intros i Hi. unfold Internal.displayedItems, Internal.startIndex, Internal.itemsPerPage.
      apply slice_window_lookup; subst lo hi; lia.
    + apply (ceilDiv_spec n 10). lia.
    + intros Hn. split.
      * unfold Internal.totalPages, Internal.itemsPerPage. fold n. rewrite Hn. reflexivity.
      * apply length_zero_iff_nil. subst lo hi. lia.
    + reflexivity.
Qed.

Lemma paginator_contract_witness :
  let s := Client.run [Client.Drop [sampleFile]; Client.NextPage] Client.initial in
  Client.displayedItems s !! Z.to_nat (10 - 9) = Client.filteredItems s !! Z.to_nat 10
  /\ 9 * (Client.totalPages s - 1) < Z.of_nat (length (Client.filteredItems s))
     <= 9 * Client.totalPages s
  /\ Client.showing s = (10, 12).
Proof.
  intros s.
  assert (Hpage : 1 <= Client.currentPage s) by (vm_compute; discriminate).
  pose proof (proj1 paginator_contract s Hpage) as H. cbv zeta in H.
  destruct H as (Hslice & _ & Hpages & _ & Hshow).
  split; [|split].
  - apply (Hslice 10). vm_compute. split; [discriminate | reflexivity].
  - exact Hpages.
  - rewrite Hshow. reflexivity.
Defined.

(** Below page 1 the window is not what [slice] returns: a negative start
    counts from the end of the list.  No reachable state has such a page
    (see [client_reachable_page]). *)
Example page_below_one :
  let s := Client.setCurrentPage (-1) (Client.run [Client.Drop [sampleFile]] Client.initial) in
  Client.startIndex s = -18
  /\ map Client.id (Client.displayedItems s) = [1; 2; 3].
Proof. split; reflexivity. Qed.

Example pagination_samples :
  let s := Client.run [Client.Drop [sampleFile]] Client.initial in
  let t := Internal.run [Internal.Drop [sampleFile]; Internal.NextPage] Internal.initial in
  (Client.totalPages s, map Client.id (Client.displayedItems s), Client.showing s)
  = (2, [1; 2; 3; 4; 5; 6; 7; 8; 9], (1, 9))
  /\ (Internal.totalPages t, map Internal.id (Internal.displayedItems t), Internal.showing t)
     = (2, [11; 12], (11, 12))
  /\ Client.totalPages Client.initial = 0
  /\ Client.displayedItems Client.initial = [].
Proof. repeat split. Qed.

(** ** Uploads *)

Lemma client_complete_failed result s :
  Papa.errors result <> [] ->
  Client.complete result s = Client.setError (Some parseErrorMessage) s.
Proof.
  intros H. unfold Client.complete.
  destruct (Papa.errors result); [congruence | reflexivity].
Qed.

Lemma internal_complete_failed result s :
  Papa.errors result <> [] ->
  Internal.complete result s = Internal.setError (Some parseErrorMessage) s.
Proof.
  intros H. unfold Internal.complete.
  destruct (Papa.errors result); [congruence | reflexivity].
Qed.

(** C10. When the parse of the dropped file reports an error, the upload
    changes the error message and nothing else: the items, search term,
    category and status filters, current page and (client) view mode keep
    their values. *)
Theorem failed_upload_frame :
  (forall s file rest,
     Papa.errors (Papa.parse transformHeader file) <> [] ->
     let s' := Client.onDrop (file :: rest) s in
     Client.items s' = Client.items s
     /\ Client.searchTerm s' = Client.searchTerm s
     /\ Client.categoryFilter s' = Client.categoryFilter s
     /\ Client.statusFilter s' = Client.statusFilter s
     /\ Client.currentPage s' = Client.currentPage s
     /\ Client.viewMode s' = Client.viewMode s
     /\ Client.error s' = Some parseErrorMessage)
  /\ (forall s file rest,
     Papa.errors (Papa.parse transformHeader file) <> [] ->
     let s' := Internal.onDrop (file :: rest) s in
     Internal.items s' = Internal.items s
     /\ Internal.searchTerm s' = Internal.searchTerm s
     /\ Internal.categoryFilter s' = Internal.categoryFilter s
     /\ Internal.statusFilter s' = Internal.statusFilter s
     /\ Internal.currentPage s' = Internal.currentPage s
     /\ Internal.error s' = Some parseErrorMessage).
Proof.
  split; intros s file rest H s'; subst s'; simpl.
  - rewrite client_complete_failed by exact H. repeat split.
  - rewrite internal_complete_failed by exact H. repeat split.
Qed.

Lemma failed_upload_frame_witness :
  let s := Client.run [Client.Drop [sampleFile]; Client.NextPage] Client.initial in
  let s' := Client.onDrop [brokenFile] s in
  Client.items s' = Client.items s
  /\ Client.searchTerm s' = Client.searchTerm s
  /\ Client.categoryFilter s' = Client.categoryFilter s
  /\ Client.statusFilter s' = Client.statusFilter s
  /\ Client.currentPage s' = Client.currentPage s
  /\ Client.viewMode s' = Client.viewMode s
  /\ Client.error s' = Some parseErrorMessage.
Proof.
  intros s. apply (proj1 failed_upload_frame s brokenFile []). vm_compute. discriminate.
Defined.

(** C2, as the code has it. When the parse of the dropped file reports an
    error, the upload sets the error message and installs no record set: the
    batch loaded before is still the record set afterwards. *)
Theorem failed_upload_keeps_batch :
  (forall s file rest,
     Papa.errors (Papa.parse transformHeader file) <> [] ->
     Client.error (Client.onDrop (file :: rest) s) = Some parseErrorMessage
     /\ Client.items (Client.onDrop (file :: rest) s) = Client.items s)
  /\ (forall s file rest,
     Papa.errors (Papa.parse transformHeader file) <> [] ->
     Internal.error (Internal.onDrop (file :: rest) s) = Some parseErrorMessage
     /\ Internal.items (Internal.onDrop (file :: rest) s) = Internal.items s).
Proof.
  split; intros s file rest H; simpl.
  - rewrite client_complete_failed by exact H. split; reflexivity.
  - rewrite internal_complete_failed by exact H. split; reflexivity.
Qed.

Lemma failed_upload_keeps_batch_witness :
  let s := Internal.run [Internal.Drop [sampleFile]] Internal.initial in
  Internal.error (Internal.onDrop [brokenFile] s) = Some parseErrorMessage
  /\ Internal.items (Internal.onDrop [brokenFile] s) = Internal.items s.
Proof.
  intros s. apply (proj2 failed_upload_keeps_batch s brokenFile []). vm_compute. discriminate.
Defined.

(** C2, as the specification words it, fails: after a good upload of twelve
    rows, a failed upload sets the message and the twelve records are still
    loaded, in both variants. *)
Lemma failed_upload_does_not_clear :
  Papa.errors (Papa.parse transformHeader brokenFile) <> []
  /\ (let s := Client.run [Client.Drop [sampleFile]; Client.Drop [brokenFile]] Client.initial in
      Client.error s = Some parseErrorMessage
      /\ length (Client.items s) = 12%nat /\ Client.items s <> [])
  /\ (let s := Internal.run [Internal.Drop [sampleFile]; Internal.Drop [brokenFile]]
                 Internal.initial in
      Internal.error s = Some parseErrorMessage
      /\ length (Internal.items s) = 12%nat /\ Internal.items s <> []).
Proof.
  split; [vm_compute; discriminate|].
  split; (split; [reflexivity | split; [reflexivity | vm_compute; discriminate]]).
Qed.

(** ** The current page *)

Lemma client_run_reachable es s : Client.reachable s -> Client.reachable (Client.run es s).
Proof.
  revert s. induction es as [|e es IH]; intros s H; [exact H|].
  apply IH. constructor. exact H.
Qed.

Lemma internal_run_reachable es s :
  Internal.reachable s -> Internal.reachable (Internal.run es s).
Proof.
  revert s. induction es as [|e es IH]; intros s H; [exact H|].
  apply IH. constructor. exact H.
Qed.

(** C4, as the code has it. In the client variant (and in the internal one
    alike) a change of the search term, the category filter or the status
    filter leaves the current page as it is. *)
Theorem filter_change_keeps_page :
  (forall s value,
     Client.currentPage (Client.handle (Client.Search value) s) = Client.currentPage s
     /\ Client.currentPage (Client.handle (Client.SelectCategory value) s)
        = Client.currentPage s
     /\ Client.currentPage (Client.handle (Client.SelectStatus value) s)
        = Client.currentPage s)
  /\ (forall s value,
     Internal.currentPage (Internal.handle (Internal.Search value) s)
     = Internal.currentPage s
     /\ Internal.currentPage (Internal.handle (Internal.SelectCategory value) s)
        = Internal.currentPage s
     /\ Internal.currentPage (Internal.handle (Internal.SelectStatus value) s)
        = Internal.currentPage s).
Proof. split; intros s value; repeat split. Qed.

(** C4, as the specification words it, fails: on the second page of twelve
    products, typing a search term, choosing a category or choosing a status
    leaves the client on page 2. *)
Lemma filter_change_does_not_reset_page :
  let s := Client.run [Client.Drop [sampleFile]; Client.NextPage] Client.initial in
  Client.reachable s
  /\ Client.currentPage s = 2
  /\ Client.currentPage (Client.handle (Client.Search "shirt") s) <> 1
  /\ Client.currentPage (Client.handle (Client.SelectCategory "Tops") s) <> 1
  /\ Client.currentPage (Client.handle (Client.SelectStatus "Sampling") s) <> 1.
Proof.
  intros s. split; [apply client_run_reachable; constructor|].
  repeat split; vm_compute; discriminate.
Qed.

Lemma client_reachable_page s : Client.reachable s -> 1 <= Client.currentPage s.
Proof.
  induction 1 as [|s e _ IH]; [simpl; lia|].
  destruct e as [files|v|v|v|m| |]; simpl; try exact IH.
  - destruct files as [|file rest]; simpl; [exact IH|].
    unfold Client.complete. destruct (0 <? _)%nat; exact IH.
  - unfold Client.prevClick. destruct (_ && _); simpl; lia.
  - unfold Client.nextClick.
    destruct (Z.ltb_spec 1 (Client.totalPages s)); simpl; [|exact IH].
    destruct (negb _); simpl; lia.
Qed.

Lemma internal_reachable_page s : Internal.reachable s -> 1 <= Internal.currentPage s.
Proof.
  induction 1 as [|s e _ IH]; [simpl; lia|].
  destruct e as [files|v|v|v| |]; simpl; try exact IH.
  - destruct files as [|file rest]; simpl; [exact IH|].
    unfold Internal.complete. destruct (0 <? _)%nat; exact IH.
  - unfold Internal.prevClick. destruct (_ && _); simpl; lia.
  - unfold Internal.nextClick.
    destruct (Z.ltb_spec 1 (Internal.totalPages s)); simpl; [|exact IH].
    destruct (negb _); simpl; lia.
Qed.

Lemma client_buttons_in_range s :
  1 <= Client.currentPage s <= Z.max 1 (Client.totalPages s) ->
  1 <= Client.currentPage (Client.prevClick s)
       <= Z.max 1 (Client.totalPages (Client.prevClick s))
  /\ 1 <= Client.currentPage (Client.nextClick s)
          <= Z.max 1 (Client.totalPages (Client.nextClick s)).
Proof.
  intros H. unfold Client.prevClick, Client.nextClick. split.
  - destruct (_ && _); [|exact H].
    change (Client.totalPages (Client.setCurrentPage _ s)) with (Client.totalPages s).
    simpl. lia.
  - destruct (Z.ltb_spec 1 (Client.totalPages s)); simpl; [|exact H].
    destruct (negb _); [|exact H].
    change (Client.totalPages (Client.setCurrentPage _ s)) with (Client.totalPages s).
    simpl. lia.
Qed.

Lemma internal_buttons_in_range s :
  1 <= Internal.currentPage s <= Z.max 1 (Internal.totalPages s) ->
  1 <= Internal.currentPage (Internal.prevClick s)
       <= Z.max 1 (Internal.totalPages (Internal.prevClick s))
  /\ 1 <= Internal.currentPage (Internal.nextClick s)
          <= Z.max 1 (Internal.totalPages (Internal.nextClick s)).
Proof.
  intros H. unfold Internal.prevClick, Internal.nextClick. split.
  - destruct (_ && _); [|exact H].
    change (Internal.totalPages (Internal.setCurrentPage _ s)) with (Internal.totalPages s).
    simpl. lia.
  - destruct (Z.ltb_spec 1 (Internal.totalPages s)); simpl; [|exact H].
    destruct (negb _); [|exact H].
    change (Internal.totalPages (Internal.setCurrentPage _ s)) with (Internal.totalPages s).
    simpl. lia.
Qed.

Lemma client_onDrop_page files s :
  Client.currentPage (Client.onDrop files s) = Client.currentPage s.
Proof.
  destruct files as [|file rest]; simpl; [reflexivity|].
  unfold Client.complete. destruct (0 <? _)%nat; reflexivity.
Qed.

Lemma internal_onDrop_page files s :
  Internal.currentPage (Internal.onDrop files s) = Internal.currentPage s.
Proof.
  destruct files as [|file rest]; simpl; [reflexivity|].
  unfold Internal.complete. destruct (0 <? _)%nat; reflexivity.
Qed.

(** C3, as the code has it. In every reachable view state of either variant
    the current page is at least 1; the two page buttons take a current page
    inside [1, max(1, totalPages)] to one inside it; and the operations that
    change the size of the filtered set (search term, category filter,
    status filter, upload) leave the current page as it is. *)
Theorem current_page_invariant :
  ((forall s, Client.reachable s -> 1 <= Client.currentPage s)
   /\ (forall s, 1 <= Client.currentPage s <= Z.max 1 (Client.totalPages s) ->
         1 <= Client.currentPage (Client.handle Client.PrevPage s)
              <= Z.max 1 (Client.totalPages (Client.handle Client.PrevPage s))
         /\ 1 <= Client.currentPage (Client.handle Client.NextPage s)
                 <= Z.max 1 (Client.totalPages (Client.handle Client.NextPage s)))
   /\ (forall s e,
         match e with
         | Client.Drop _ | Client.Search _ | Client.SelectCategory _
         | Client.SelectStatus _ =>
             Client.currentPage (Client.handle e s) = Client.currentPage s
         | _ => True
         end))
  /\ ((forall s, Internal.reachable s -> 1 <= Internal.currentPage s)
   /\ (forall s, 1 <= Internal.currentPage s <= Z.max 1 (Internal.totalPages s) ->
         1 <= Internal.currentPage (Internal.handle Internal.PrevPage s)
              <= Z.max 1 (Internal.totalPages (Internal.handle Internal.PrevPage s))
         /\ 1 <= Internal.currentPage (Internal.handle Internal.NextPage s)
                 <= Z.max 1 (Internal.totalPages (Internal.handle Internal.NextPage s)))
   /\ (forall s e,
         match e with
         | Internal.Drop _ | Internal.Search _ | Internal.SelectCategory _
         | Internal.SelectStatus _ =>
             Internal.currentPage (Internal.handle e s) = Internal.currentPage s
         | _ => True
         end)).
Proof.
  split; (split; [|split]).
  - exact client_reachable_page.
  - exact client_buttons_in_range.
  - intros s [files|v|v|v|m| |]; simpl; auto using client_onDrop_page.
  - exact internal_reachable_page.
  - exact internal_buttons_in_range.
  - intros s [files|v|v|v| |]; simpl; auto using internal_onDrop_page.
Qed.

Lemma current_page_invariant_witness :
  let s := Client.run [Client.Drop [sampleFile]; Client.NextPage] Client.initial in
  1 <= Client.currentPage s
  /\ 1 <= Client.currentPage (Client.handle Client.PrevPage s)
          <= Z.max 1 (Client.totalPages (Client.handle Client.PrevPage s)).
Proof.
  intros s. split.
  - apply (proj1 (proj1 current_page_invariant)). apply client_run_reachable. constructor.
  - destruct (proj1 (proj2 (proj1 current_page_invariant)) s) as [Hprev _];
      [vm_compute; split; discriminate | exact Hprev].
Defined.

(** C3, as the specification words it, fails: on the second page of twelve
    products, choosing the category "Tops" leaves seven products, one page,
    and the current page 2, in both variants. *)
Lemma current_page_not_clamped :
  (let s := Client.run [Client.Drop [sampleFile]; Client.NextPage;
                        Client.SelectCategory "Tops"] Client.initial in
   Client.reachable s
   /\ Client.totalPages s = 1 /\ Client.currentPage s = 2
   /\ ~ (1 <= Client.currentPage s <= Z.max 1 (Client.totalPages s)))
  /\ (let s := Internal.run [Internal.Drop [sampleFile]; Internal.NextPage;
                             Internal.SelectCategory "Tops"] Internal.initial in
   Internal.reachable s
   /\ Internal.totalPages s = 1 /\ Internal.currentPage s = 2
   /\ ~ (1 <= Internal.currentPage s <= Z.max 1 (Internal.totalPages s))).
Proof.
  split; intros s;
    (split; [first [apply client_run_reachable | apply internal_run_reachable]; constructor|]).
  - assert (Ht : Client.totalPages s = 1) by (vm_compute; reflexivity).
    assert (Hc : Client.currentPage s = 2) by (vm_compute; reflexivity).
    rewrite Ht, Hc. repeat split. lia.
  - assert (Ht : Internal.totalPages s = 1) by (vm_compute; reflexivity).
    assert (Hc : Internal.currentPage s = 2) by (vm_compute; reflexivity).
    rewrite Ht, Hc. repeat split. lia.
Qed.

(** ** Numbers *)

Lemma float_eqb_zero f :
  PrimFloat.eqb f 0 = true <-> f = 0%float \/ f = (-0)%float.
Proof.
  split.
  - rewrite FloatAxioms.eqb_spec. intros H.
    rewrite <- (SF2Prim_Prim2SF f).
    change (Prim2SF 0) with (S754_zero false) in H.
    destruct (Prim2SF f) as [[]|[]| |[] m e]; simpl in H; try discriminate.
    + right. reflexivity.
    + left. reflexivity.
  - intros [-> | ->]; reflexivity.
Qed.

Lemma SFcompare_refl x : x <> S754_nan -> SFcompare x x = Some Eq.
Proof.
  destruct x as [s|s| |s m e]; try congruence; intros _; destruct s; simpl; auto.
  all: rewrite Z.compare_refl; unfold Pos.compare; rewrite ?Pos.compare_cont_refl;
    reflexivity.
Qed.



(** A negative Number is truthy, so [x || 0] is [x]. *)
Lemma or_zero_negative x : PrimFloat.ltb x 0 = true -> JS.or_zero x = x.
Proof.
  intros H. unfold JS.or_zero, JS.truthy, PrimFloat.is_nan.
  rewrite FloatAxioms.ltb_spec in H. rewrite !FloatAxioms.eqb_spec.
  unfold SFltb, SFeqb in *.
  assert (Hn : Prim2SF x <> S754_nan).
  { destruct (Prim2SF x); simpl in H; congruence. }
  rewrite (SFcompare_refl _ Hn).
  destruct (SFcompare (Prim2SF x) (Prim2SF 0)) as [[]|]; try discriminate.
  reflexivity.
Qed.


(** C8. The margin is 0 when the factory cost is zero (of either sign), and
    [(productionCost - factoryCost) / factoryCost * 100] otherwise, for all
    production costs, negative and large ones and infinities included. *)
Theorem margin_contract :
  forall productionCost factoryCost,
    (factoryCost = 0%float \/ factoryCost = (-0)%float ->
     Internal.calculateMargin productionCost factoryCost = 0%float)
    /\ (factoryCost <> 0%float -> factoryCost <> (-0)%float ->
        Internal.calculateMargin productionCost factoryCost
        = ((productionCost - factoryCost) / factoryCost * 100)%float).
Proof.
  intros p f. unfold Internal.calculateMargin. split.
  - intros H. apply float_eqb_zero in H. rewrite H. reflexivity.
  - intros H1 H2. destruct (PrimFloat.eqb f 0) eqn:E; [|reflexivity].
    apply float_eqb_zero in E. tauto.
Qed.

Lemma margin_contract_witness :
  Internal.calculateMargin (-250.5) (-0) = 0%float
  /\ Internal.calculateMargin 1e22 0 = 0%float
  /\ Internal.calculateMargin 150 100 = ((150 - 100) / 100 * 100)%float
  /\ Internal.calculateMargin 1e22 (-0.5) = ((1e22 - -0.5) / -0.5 * 100)%float.
Proof.
  assert (D : forall x : float, PrimFloat.eqb x 0 = false ->
                x <> 0%float /\ x <> (-0)%float).
  { intros x Hx. split; intros E; rewrite E in Hx; discriminate Hx. }
  split; [apply (proj1 (margin_contract (-250.5) (-0))); right; reflexivity|].
  split; [apply (proj1 (margin_contract 1e22 0)); left; reflexivity|].
  split.
  - apply (proj2 (margin_contract 150 100)); apply (D 100%float); reflexivity.
  - apply (proj2 (margin_contract 1e22 (-0.5))); apply (D (-0.5)%float); reflexivity.
Defined.

Example margin_samples :
  Internal.calculateMargin 150 100 = 50%float
  /\ Internal.calculateMargin 50 100 = (-50)%float
  /\ Internal.calculateMargin (-3) 4 = (-175)%float
  /\ Internal.calculateMargin 12 infinity = nan.
Proof. repeat split. Qed.

(** ** Scanning digits *)









(** ** Coercion of numeric cells *)






Example coercion_samples :
  map (fun v => JS.or_zero (JS.parseInt v))
    ["12"; "12.75"; "-12.75"; "0.9"; "-0.9"; " 40 units"; "abc"; ""; "1.5e1"; "0x1F";
     "undefined"]%string
  = [12; 12; -12; 0; 0; 40; 0; 0; 1; 31; 0]%float
  /\ map (fun v => JS.or_zero (JS.parseFloat v))
       ["4.25"; "-4.25"; "1.5e1"; ".5"; "$4.25"; "abc"; "-0"; "Infinity"]%string
     = [4.25; -4.25; 15; 0.5; 0; 0; 0; infinity]%float
  /\ JS.or_zero (JS.parseInt (JS.CodePointsToString [JS.Cp 0xA0; JS.Cp 0x37])) = 7%float
  /\ JS.or_zero (JS.parseFloat (JS.CodePointsToString
                                  [JS.Cp 0xFEFF; JS.Cp 0x32; JS.Cp 0x2E; JS.Cp 0x35]))
     = 2.5%float.
Proof. repeat split; vm_compute; reflexivity. Qed.

(** ** Header keys and the properties the coercion reads *)

Lemma hasUpper_app a b : hasUpper (a +:+ b) = hasUpper a || hasUpper b.
Proof.
  induction a as [|c a IH]; [reflexivity|].
  change (hasUpper (String c (a +:+ b)) = hasUpper (String c a) || hasUpper b).
  simpl. rewrite IH, orb_assoc. reflexivity.
Qed.

Lemma isUpper_byte n :
  (n < 256)%N -> (n < 0x41 \/ 0x5A < n)%N -> JS.isUpper (JS.byte n) = false.
Proof.
  intros Hn Hc. unfold JS.isUpper. rewrite code_byte by exact Hn.
  apply andb_false_iff. rewrite N.leb_gt, N.leb_gt. lia.
Qed.

Lemma encodeCodePoint_noCapital u :
  noCapital u = true -> hasUpper (JS.encodeCodePoint u) = false.
Proof.
  destruct u as [c|b]; simpl noCapital.
  - rewrite andb_true_iff, negb_true_iff, andb_false_iff, N.leb_le, !N.leb_gt.
    intros [Hv Hc]. unfold JS.encodeCodePoint.
    destruct (N.ltb_spec c 0x80); [|destruct (N.ltb_spec c 0x800);
      [|destruct (N.ltb_spec c 0x10000)]]; cbn [hasUpper];
      rewrite ?orb_false_r, ?orb_false_iff; repeat split; apply isUpper_byte;
      try (zify; Z.to_euclidean_division_equations; lia).
  - rewrite N.leb_le. intros Hb. cbn [JS.encodeCodePoint hasUpper].
    rewrite orb_false_r. unfold JS.isUpper.
    apply andb_false_iff. right. apply N.leb_gt. lia.
Qed.

Lemma CodePointsToString_noCapital l :
  forallb noCapital l = true -> hasUpper (JS.CodePointsToString l) = false.
Proof.
  induction l as [|u l IH]; [reflexivity|]. simpl forallb. rewrite andb_true_iff.
  intros [Hu Hl]. cbn [JS.CodePointsToString].
  rewrite hasUpper_app, (encodeCodePoint_noCapital u Hu), (IH Hl). reflexivity.
Qed.

(** Every run of the table maps into Unicode, above the ASCII capitals. *)
Lemma Lowercase_Mapping_runs_bounds :
  forallb (fun run : N * N * N * N =>
             let '(first, last, _, target) := run in
             ((first <=? last) && (0x5A <? target)
              && (target + (last - first) <=? 0x10FFFF))%N)
    Unicode.Lowercase_Mapping_runs = true.
Proof. vm_compute. reflexivity. Qed.

Lemma simpleLowercase_noCapital c :
  (c <= 0x10FFFF)%N -> noCapital (JS.Cp (Unicode.simpleLowercase c)) = true.
Proof.
  intros Hc. unfold Unicode.simpleLowercase, noCapital.
  destruct (N.ltb_spec c 0x80) as [Ha|Ha].
  - destruct (N.leb_spec 0x41 c); destruct (N.leb_spec c 0x5A); simpl andb; cbv iota;
      rewrite andb_true_iff, negb_true_iff, andb_false_iff, N.leb_le, !N.leb_gt; lia.
  - destruct (find (Unicode.inRun c) Unicode.Lowercase_Mapping_runs)
      as [[[[first last] step] target]|] eqn:Hf.
    + apply find_some in Hf as [Hin Hrun].
      pose proof (proj1 (forallb_forall _ _) Lowercase_Mapping_runs_bounds _ Hin) as Hb.
      cbv beta iota in Hb. unfold Unicode.inRun in Hrun.
      rewrite !andb_true_iff, !N.leb_le in Hb, Hrun.
      destruct Hb as [[_ Ht] Hb], Hrun as [Hrun _]. apply N.ltb_lt in Ht.
      rewrite andb_true_iff, negb_true_iff, andb_false_iff, N.leb_le, !N.leb_gt. lia.
    + rewrite andb_true_iff, negb_true_iff, andb_false_iff, N.leb_le, !N.leb_gt. lia.
Qed.

Lemma toLowercase_noCapital st l :
  forallb wellFormedChar l = true -> forallb noCapital (JS.toLowercase st l) = true.
Proof.
  revert st. induction l as [|u l IH]; intros st; [reflexivity|].
  simpl forallb. rewrite andb_true_iff. intros [Hu Hl].
  cbn [JS.toLowercase]. rewrite forallb_app, (IH _ Hl), andb_true_r.
  destruct u as [c|b]; simpl in Hu |- *.
  - destruct (c =? 0x3A3)%N; [destruct (_ && _); reflexivity|].
    destruct (c =? 0x130)%N; [reflexivity|]. simpl forallb. rewrite andb_true_r.
    apply simpleLowercase_noCapital. apply N.leb_le, Hu.
  - rewrite Hu. reflexivity.
Qed.

Lemma StringToCodePoints_wellFormed s :
  forallb wellFormedChar (JS.StringToCodePoints s) = true.
Proof.
  apply (StringToCodePoints_ind (fun _ l => forallb wellFormedChar l = true));
    try reflexivity; intros; simpl forallb; rewrite andb_true_iff; split;
    try assumption; apply N.leb_le.
  - pose proof (code_bound b). lia.
  - unfold JS.cp2. lia.
  - unfold JS.cp3. lia.
  - match goal with H : JS.isScalar4 _ = true |- _ =>
      apply andb_true_iff in H as [_ H]; apply N.leb_le in H; exact H end.
  - assumption.
Qed.

Lemma StringToCodePoints_noCapital s :
  hasUpper s = false -> forallb noCapital (JS.StringToCodePoints s) = true.
Proof.
  apply (StringToCodePoints_ind
           (fun s l => hasUpper s = false -> forallb noCapital l = true)).
  - reflexivity.
  - intros b t Hb IH. simpl hasUpper. rewrite orb_false_iff. intros [Hu Ht].
    simpl forallb. rewrite (IH Ht), andb_true_r. unfold JS.isUpper in Hu.
    rewrite Hu, andb_true_r. apply N.leb_le. lia.
  - intros b0 b1 t H0 H1 IH. simpl hasUpper. rewrite !orb_false_iff. intros (_ & _ & Ht).
    simpl forallb. rewrite (IH Ht), andb_true_r.
    rewrite andb_true_iff, negb_true_iff, andb_false_iff, N.leb_le, !N.leb_gt.
    unfold JS.cp2. lia.
  - intros b0 b1 b2 t H0 H1 H2 Hs IH. simpl hasUpper. rewrite !orb_false_iff.
    intros (_ & _ & _ & Ht). simpl forallb. rewrite (IH Ht), andb_true_r.
    apply andb_true_iff in Hs as [Hlo _]. apply N.leb_le in Hlo.
    rewrite andb_true_iff, negb_true_iff, andb_false_iff, N.leb_le, !N.leb_gt.
    split; [unfold JS.cp3|]; lia.
  - intros b0 b1 b2 b3 t H0 H1 H2 H3 Hs IH. simpl hasUpper. rewrite !orb_false_iff.
    intros (_ & _ & _ & _ & Ht). simpl forallb. rewrite (IH Ht), andb_true_r.
    unfold JS.isScalar4 in Hs. apply andb_true_iff in Hs as [Hlo Hhi].
    apply N.leb_le in Hlo, Hhi.
    rewrite andb_true_iff, negb_true_iff, andb_false_iff, N.leb_le, !N.leb_gt. lia.
  - intros b t Hb IH. simpl hasUpper. rewrite orb_false_iff. intros [_ Ht].
    simpl forallb. rewrite (IH Ht), andb_true_r. apply N.leb_le. exact Hb.
Qed.

Lemma forallb_filter {A} (p q : A -> bool) (l : list A) :
  forallb p l = true -> forallb p (List.filter q l) = true.
Proof.
  induction l as [|x l IH]; [reflexivity|]. simpl. rewrite andb_true_iff.
  intros [Hx Hl]. destruct (q x); simpl; [rewrite Hx|]; auto.
Qed.

(** The lower case of a string has no ASCII capital. *)
Lemma toLowerCase_no_upper s : hasUpper (JS.toLowerCase s) = false.
Proof.
  apply CodePointsToString_noCapital, toLowercase_noCapital,
    StringToCodePoints_wellFormed.
Qed.

Lemma transformHeader_no_upper h : hasUpper (transformHeader h) = false.
Proof.
  unfold transformHeader, JS.removeWhiteSpace.
  apply CodePointsToString_noCapital, forallb_filter, StringToCodePoints_noCapital,
    toLowerCase_no_upper.
Qed.

Lemma zip_keys (fields cells : list string) k :
  In k (map fst (zip fields cells)) -> In k fields.
Proof.
  revert cells. induction fields as [|f fields IH]; intros [|c cells]; simpl; try tauto.
  intros [H|H]; [left; exact H | right; exact (IH _ H)].
Qed.

Lemma assign_lookup_None (l : list (string * string)) (acc : gmap string string) k :
  acc !! k = None -> ~ In k (map fst l) ->
  foldl (fun row kv => <[kv.1 := kv.2]> row) acc l !! k = None.
Proof.
  revert acc. induction l as [|[a b] l IH]; intros acc Hacc Hk; simpl in *; [exact Hacc|].
  apply IH; [|tauto]. rewrite lookup_insert_ne by tauto. exact Hacc.
Qed.

Lemma rowObject_lookup_None fields cells k :
  ~ In k fields -> Papa.rowObject fields cells !! k = None.
Proof.
  intros Hk. unfold Papa.rowObject. apply assign_lookup_None; [apply lookup_empty|].
  intros H. apply Hk. exact (zip_keys _ _ _ H).
Qed.

(** No row that papaparse builds with [transformHeader] has a property whose
    name has a capital letter. *)
Lemma parsed_rows_lack_camel_case file row key :
  In row (Papa.data (Papa.parse transformHeader file)) ->
  hasUpper key = true -> row !! key = None.
Proof.
  simpl. rewrite in_map_iff. intros (cells & <- & _) Hkey.
  apply rowObject_lookup_None. rewrite in_map_iff. intros (h & <- & _).
  rewrite transformHeader_no_upper in Hkey. discriminate.
Qed.

(** Hence the quantity of every record of every successful upload is 0,
    whatever the file holds, in both variants. *)
Lemma quantity_always_zero file :
  Papa.errors (Papa.parse transformHeader file) = [] ->
  (forall s i item,
     Client.items (Client.onDrop [file] s) !! i = Some item ->
     Client.minOrderQuantity item = 0%float)
  /\ (forall s i item,
     Internal.items (Internal.onDrop [file] s) !! i = Some item ->
     Internal.minOrderQuantity item = 0%float).
Proof.
  intros Herr. split; intros s i item.
  - unfold Client.onDrop, Client.complete. rewrite Herr. simpl.
    rewrite list_lookup_imap. destruct (_ !! i) as [row|] eqn:Hrow; [|discriminate].
    simpl. intros [= <-]. simpl.
    rewrite (parsed_rows_lack_camel_case file row "minOrderQuantity"); [reflexivity| |reflexivity].
    apply list_elem_of_In, list_elem_of_lookup. exists i. exact Hrow.
  - unfold Internal.onDrop, Internal.complete. rewrite Herr. simpl.
    rewrite list_lookup_imap. destruct (_ !! i) as [row|] eqn:Hrow; [|discriminate].
    simpl. intros [= <-]. simpl.
    rewrite (parsed_rows_lack_camel_case file row "minOrderQuantity"); [reflexivity| |reflexivity].
    apply list_elem_of_In, list_elem_of_lookup. exists i. exact Hrow.
Qed.

(** C1, where the code departs from it. The three spellings of the quantity
    header get the same key, [minorderquantity], and the upload parses
    without error; the record is built (its name is read from the [name]
    key), but its [minOrderQuantity] is 0 and not the 12 of the cell, because
    the coercion reads the property [minOrderQuantity], which no transformed
    header can be. *)
Theorem quantity_header_not_read :
  Forall (fun h =>
            transformHeader h = "minorderquantity"%string
            /\ Papa.errors (Papa.parse transformHeader (quantityUpload h)) = []
            /\ map (fun item => (Client.name item, Client.minOrderQuantity item))
                 (Client.items (Client.onDrop [quantityUpload h] Client.initial))
               = [("Oxford Shirt"%string, 0%float)]
            /\ map (fun item => (Internal.name item, Internal.minOrderQuantity item))
                 (Internal.items (Internal.onDrop [quantityUpload h] Internal.initial))
               = [("Oxford Shirt"%string, 0%float)])
    ["Min Order Quantity"; "minOrderQuantity"; "MIN ORDER QUANTITY"]%string
  /\ JS.or_zero (JS.parseInt "12") = 12%float.
Proof.
  split; [|reflexivity].
  repeat constructor.
Qed.

(** * Further properties of the components *)

(** ** Where the loaded records come from *)

Lemma sublist_map {A B} (f : A -> B) (k l : list A) :
  sublist k l -> sublist (map f k) (map f l).
Proof. induction 1; simpl; constructor; assumption. Qed.

Lemma slice_is_sublist {A} (l : list A) (start end_ : Z) : sublist (JS.slice l start end_) l.
Proof.
  unfold JS.slice. etransitivity; [apply sublist_take | apply sublist_drop].
Qed.

(** The loaded records of a reachable state are the coercion of rows none of
    which has a property with a capital letter in its name. *)
Lemma client_items_origin s :
  Client.reachable s ->
  exists data,
    Client.items s = imap Client.coerce data
    /\ forall row key, In row data -> hasUpper key = true -> row !! key = None.
Proof.
  induction 1 as [|s e _ IH].
  - exists []. split; [reflexivity | intros row key []].
  - destruct e as [files|v|v|v|m| |]; simpl; try exact IH.
    + destruct files as [|file rest]; simpl; [exact IH|].
      unfold Client.complete. destruct (0 <? _)%nat; [exact IH|].
      exists (Papa.data (Papa.parse transformHeader file)). split; [reflexivity|].
      intros row key. apply parsed_rows_lack_camel_case.
    + unfold Client.prevClick. destruct (_ && _); exact IH.
    + unfold Client.nextClick. destruct (_ && _); exact IH.
Qed.

Lemma internal_items_origin s :
  Internal.reachable s ->
  exists data,
    Internal.items s = imap Internal.coerce data
    /\ forall row key, In row data -> hasUpper key = true -> row !! key = None.
Proof.
  induction 1 as [|s e _ IH].
  - exists []. split; [reflexivity | intros row key []].
  - destruct e as [files|v|v|v| |]; simpl; try exact IH.
    + destruct files as [|file rest]; simpl; [exact IH|].
      unfold Internal.complete. destruct (0 <? _)%nat; [exact IH|].
      exists (Papa.data (Papa.parse transformHeader file)). split; [reflexivity|].
      intros row key. apply parsed_rows_lack_camel_case.
    + unfold Internal.prevClick. destruct (_ && _); exact IH.
    + unfold Internal.nextClick. destruct (_ && _); exact IH.
Qed.

Lemma imap_ids {A B} (f : nat -> A -> B) (id : B -> Z) (data : list A) :
  (forall i row, id (f i row) = Z.of_nat i + 1) ->
  map id (imap f data) = seqZ 1 (Z.of_nat (length (imap f data))).
Proof.
  intros Hid. rewrite length_imap.
  change (map id (imap f data)) with (id <$> imap f data). rewrite fmap_imap.
  rewrite (imap_ext _ (fun i _ => Z.of_nat i + 1)) by (intros; apply Hid).
  rewrite imap_seq_0. unfold seqZ. rewrite Nat2Z.id. reflexivity.
Qed.

(** X1. In every reachable state the ids of the loaded records are 1, 2, ...,
    N in batch order, in both variants; hence the React keys of the rows on
    display are pairwise distinct. *)
Theorem ids_dense_and_keys_distinct :
  (forall s, Client.reachable s ->
     map Client.id (Client.items s) = seqZ 1 (Z.of_nat (length (Client.items s)))
     /\ NoDup (map Client.id (Client.displayedItems s)))
  /\ (forall s, Internal.reachable s ->
     map Internal.id (Internal.items s) = seqZ 1 (Z.of_nat (length (Internal.items s)))
     /\ NoDup (map Internal.id (Internal.displayedItems s))).
Proof.
  split; intros s Hs.
  - assert (Hids : map Client.id (Client.items s)
                   = seqZ 1 (Z.of_nat (length (Client.items s)))).
    { destruct (client_items_origin s Hs) as (data & -> & _).
      apply imap_ids. reflexivity. }
    split; [exact Hids|].
    apply sublist_NoDup with (l2 := map Client.id (Client.items s)).
    + rewrite Hids. apply NoDup_seqZ.
    + apply sublist_map. etransitivity; [apply slice_is_sublist|].
      apply filter_is_sublist.
  - assert (Hids : map Internal.id (Internal.items s)
                   = seqZ 1 (Z.of_nat (length (Internal.items s)))).
    { destruct (internal_items_origin s Hs) as (data & -> & _).
      apply imap_ids. reflexivity. }
    split; [exact Hids|].
    apply sublist_NoDup with (l2 := map Internal.id (Internal.items s)).
    + rewrite Hids. apply NoDup_seqZ.
    + apply sublist_map. etransitivity; [apply slice_is_sublist|].
      apply filter_is_sublist.
Qed.

Lemma ids_dense_and_keys_distinct_witness :
  let s := Client.run [Client.Drop [sampleFile]; Client.NextPage] Client.initial in
  map Client.id (Client.items s) = seqZ 1 (Z.of_nat (length (Client.items s)))
  /\ NoDup (map Client.id (Client.displayedItems s)).
Proof.
  intros s. apply (proj1 ids_dense_and_keys_distinct s).
  apply client_run_reachable. constructor.
Defined.

Lemma In_imap {A B} (f : nat -> A -> B) (l : list A) (y : B) :
  In y (imap f l) -> exists i x, y = f i x /\ In x l.
Proof.
  intros H. apply list_elem_of_In, list_elem_of_lookup in H as [i H].
  rewrite list_lookup_imap in H. destruct (l !! i) as [x|] eqn:Hx; [|discriminate].
  injection H as <-. exists i, x. split; [reflexivity|].
  apply list_elem_of_In, list_elem_of_lookup. exists i. exact Hx.
Qed.

Lemma client_coerce_camel_case index row :
  (forall key, hasUpper key = true -> row !! key = None) ->
  let item := Client.coerce index row in
  Client.minOrderQuantity item = 0%float
  /\ Client.sampleLeadTime item = EmptyString
  /\ Client.bulkLeadTime item = EmptyString
  /\ Client.fabricMaterial item = EmptyString
  /\ Client.imageUrl item = EmptyString.
Proof.
  intros H. simpl.
  rewrite (H "minOrderQuantity"%string), (H "sampleLeadTime"%string),
    (H "bulkLeadTime"%string), (H "fabricMaterial"%string), (H "imageUrl"%string)
    by reflexivity.
  repeat split.
Qed.

Lemma internal_coerce_camel_case index row :
  (forall key, hasUpper key = true -> row !! key = None) ->
  let item := Internal.coerce index row in
  Internal.minOrderQuantity item = 0%float
  /\ Internal.sampleCost item = 0%float
  /\ Internal.productionCost item = 0%float
  /\ Internal.factoryCost item = 0%float
  /\ Internal.sampleLeadTime item = EmptyString
  /\ Internal.bulkLeadTime item = EmptyString
  /\ Internal.fabricMaterial item = EmptyString
  /\ Internal.imageUrl item = EmptyString
  /\ Internal.alibabaUrl item = EmptyString.
Proof.
  intros H. simpl.
  rewrite (H "minOrderQuantity"%string), (H "sampleCost"%string),
    (H "productionCost"%string), (H "factoryCost"%string),
    (H "sampleLeadTime"%string), (H "bulkLeadTime"%string),
    (H "fabricMaterial"%string), (H "imageUrl"%string), (H "alibabaUrl"%string)
    by reflexivity.
  repeat split.
Qed.

(** X2. In every reachable state, every loaded record has the default in
    each field that the coercion reads from a camel-case property: quantity
    and costs are 0, lead times, material and URLs are empty.  So the bulk
    lead time always reads N/A, the margin cell is always 0 and the Alibaba
    link is never rendered. *)
Theorem camel_case_fields_stay_default :
  (forall s item, Client.reachable s -> In item (Client.items s) ->
     Client.minOrderQuantity item = 0%float
     /\ Client.sampleLeadTime item = EmptyString
     /\ Client.bulkLeadTime item = EmptyString
     /\ Client.fabricMaterial item = EmptyString
     /\ Client.imageUrl item = EmptyString
     /\ ClientView.bulkLeadTimeText item = "N/A"%string)
  /\ (forall s item, Internal.reachable s -> In item (Internal.items s) ->
     Internal.minOrderQuantity item = 0%float
     /\ Internal.sampleCost item = 0%float
     /\ Internal.productionCost item = 0%float
     /\ Internal.factoryCost item = 0%float
     /\ Internal.sampleLeadTime item = EmptyString
     /\ Internal.bulkLeadTime item = EmptyString
     /\ Internal.fabricMaterial item = EmptyString
     /\ Internal.imageUrl item = EmptyString
     /\ Internal.alibabaUrl item = EmptyString
     /\ InternalView.bulkLeadTimeText item = "N/A"%string
     /\ InternalView.marginCell item = 0%float
     /\ InternalView.alibabaLinkShown item = false).
Proof.
  split; intros s item Hs Hitem.
  - destruct (client_items_origin s Hs) as (data & E & Hdata). rewrite E in Hitem.
    apply In_imap in Hitem as (i & row & -> & Hrow).
    destruct (client_coerce_camel_case i row (fun key => Hdata row key Hrow))
      as (H1 & H2 & H3 & H4 & H5).
    unfold ClientView.bulkLeadTimeText. rewrite H3. repeat split; assumption.
  - destruct (internal_items_origin s Hs) as (data & E & Hdata). rewrite E in Hitem.
    apply In_imap in Hitem as (i & row & -> & Hrow).
    destruct (internal_coerce_camel_case i row (fun key => Hdata row key Hrow))
      as (H1 & H2 & H3 & H4 & H5 & H6 & H7 & H8 & H9).
    unfold InternalView.bulkLeadTimeText, InternalView.marginCell,
      InternalView.alibabaLinkShown.
    rewrite H3, H4, H6, H9. repeat split; assumption.
Qed.

Lemma camel_case_fields_stay_default_witness :
  let s := Internal.run [Internal.Drop [sampleFile]] Internal.initial in
  Forall (fun item =>
            Internal.minOrderQuantity item = 0%float
            /\ InternalView.marginCell item = 0%float
            /\ InternalView.alibabaLinkShown item = false)
    (Internal.items s).
Proof.
  intros s. apply Forall_forall. intros item Hitem.
  apply list_elem_of_In in Hitem.
  destruct (proj2 camel_case_fields_stay_default s item) as
    (H1 & _ & _ & _ & _ & _ & _ & _ & _ & _ & H2 & H3).
  - apply internal_run_reachable. constructor.
  - exact Hitem.
  - auto.
Defined.

(** ** Columns that reach the record *)

Lemma assign_lookup_other (l : list (string * string)) (acc : gmap string string) k :
  ~ In k (map fst l) ->
  foldl (fun row kv => <[kv.1 := kv.2]> row) acc l !! k = acc !! k.
Proof.
  revert acc. induction l as [|[a b] l IH]; intros acc Hk; simpl in *; [reflexivity|].
  rewrite IH by tauto. apply lookup_insert_ne. tauto.
Qed.

Lemma assign_lookup_Some (l : list (string * string)) (acc : gmap string string) k v :
  NoDup (map fst l) -> In (k, v) l ->
  foldl (fun row kv => <[kv.1 := kv.2]> row) acc l !! k = Some v.
Proof.
  revert acc. induction l as [|[a b] l IH]; intros acc Hnd Hin; simpl in *; [tauto|].
  apply NoDup_cons in Hnd as [Ha Hnd]. destruct Hin as [[= -> ->]|Hin].
  - rewrite assign_lookup_other by (rewrite <- list_elem_of_In; exact Ha).
    apply lookup_insert_eq.
  - apply IH; assumption.
Qed.

Lemma zip_keys_NoDup (fields cells : list string) :
  NoDup fields -> NoDup (map fst (zip fields cells)).
Proof.
  revert cells. induction fields as [|f fields IH]; intros [|c cells] Hnd; simpl;
    try apply NoDup_nil_2.
  apply NoDup_cons in Hnd as [Hf Hnd]. apply NoDup_cons. split; [|apply IH, Hnd].
  intros H. apply Hf, list_elem_of_In, (zip_keys fields cells), list_elem_of_In, H.
Qed.

Lemma zip_lookup_In (fields cells : list string) j k v :
  fields !! j = Some k -> cells !! j = Some v -> In (k, v) (zip fields cells).
Proof.
  revert cells j. induction fields as [|f fields IH]; intros [|c cells] [|j]; simpl;
    try discriminate.
  - intros [= ->] [= ->]. left. reflexivity.
  - intros Hk Hv. right. exact (IH _ _ Hk Hv).
Qed.

(** With distinct keys, the property of a column's key is the cell of that
    column. *)
Lemma rowObject_lookup_Some fields cells j k v :
  NoDup fields -> fields !! j = Some k -> cells !! j = Some v ->
  Papa.rowObject fields cells !! k = Some v.
Proof.
  intros Hnd Hk Hv. unfold Papa.rowObject.
  apply assign_lookup_Some; [apply zip_keys_NoDup, Hnd | exact (zip_lookup_In _ _ _ _ _ Hk Hv)].
Qed.

Lemma or_empty_Some v : JS.or_empty (Some v) = v.
Proof. simpl. destruct (String.eqb_spec v EmptyString) as [->|]; reflexivity. Qed.

Lemma parsed_row_lookup file i j h cells v :
  NoDup (map transformHeader (Papa.header file)) ->
  Papa.records file !! i = Some cells ->
  Papa.header file !! j = Some h -> cells !! j = Some v ->
  exists row,
    Papa.data (Papa.parse transformHeader file) !! i = Some row
    /\ row !! transformHeader h = Some v.
Proof.
  intros Hnd Hcells Hh Hv.
  exists (Papa.rowObject (map transformHeader (Papa.header file)) cells). split.
  - simpl. change (map ?f ?l) with (f <$> l) at 1. rewrite list_lookup_fmap, Hcells.
    reflexivity.
  - apply rowObject_lookup_Some with (j := j); [exact Hnd | | exact Hv].
    change (map ?f ?l) with (f <$> l). rewrite list_lookup_fmap, Hh. reflexivity.
Qed.

(** X3. In an upload that parses without error and whose headers have
    distinct keys, the cell in data line [i] under a header whose key is
    [name], [category], [status] or [sizes] (and [shipping], [note] in the
    internal variant) is that field of record [i], and the cell under
    [balance] gives the client's balance as [parseFloat(cell) || 0]. *)
Theorem lower_case_columns_reach_record :
  (forall s file i j h cells v,
     Papa.errors (Papa.parse transformHeader file) = [] ->
     NoDup (map transformHeader (Papa.header file)) ->
     Papa.records file !! i = Some cells ->
     Papa.header file !! j = Some h -> cells !! j = Some v ->
     exists item,
       Client.items (Client.onDrop [file] s) !! i = Some item
       /\ (transformHeader h = "name"%string -> Client.name item = v)
       /\ (transformHeader h = "category"%string -> Client.category item = v)
       /\ (transformHeader h = "status"%string -> Client.status item = v)
       /\ (transformHeader h = "sizes"%string -> Client.sizes item = v)
       /\ (transformHeader h = "balance"%string ->
           Client.balance item = JS.or_zero (JS.parseFloat v)))
  /\ (forall s file i j h cells v,
     Papa.errors (Papa.parse transformHeader file) = [] ->
     NoDup (map transformHeader (Papa.header file)) ->
     Papa.records file !! i = Some cells ->
     Papa.header file !! j = Some h -> cells !! j = Some v ->
     exists item,
       Internal.items (Internal.onDrop [file] s) !! i = Some item
       /\ (transformHeader h = "name"%string -> Internal.name item = v)
       /\ (transformHeader h = "category"%string -> Internal.category item = v)
       /\ (transformHeader h = "status"%string -> Internal.status item = v)
       /\ (transformHeader h = "sizes"%string -> Internal.sizes item = v)
       /\ (transformHeader h = "shipping"%string -> Internal.shipping item = v)
       /\ (transformHeader h = "note"%string -> Internal.note item = v)).
Proof.
  split; intros s file i j h cells v Herr Hnd Hcells Hh Hv;
    destruct (parsed_row_lookup file i j h cells v Hnd Hcells Hh Hv) as (row & Hrow & Hkey).
  - exists (Client.coerce i row). split.
    + unfold Client.onDrop, Client.complete. rewrite Herr. simpl.
      rewrite list_lookup_imap. simpl in Hrow. rewrite Hrow. reflexivity.
    + repeat split; intros E; rewrite E in Hkey; simpl; rewrite Hkey;
        first [apply or_empty_Some | reflexivity].
  - exists (Internal.coerce i row). split.
    + unfold Internal.onDrop, Internal.complete. rewrite Herr. simpl.
      rewrite list_lookup_imap. simpl in Hrow. rewrite Hrow. reflexivity.
    + repeat split; intros E; rewrite E in Hkey; simpl; rewrite Hkey;
        apply or_empty_Some.
Qed.

Lemma lower_case_columns_reach_record_witness :
  exists item,
    Client.items (Client.onDrop [sampleFile] Client.initial) !! 7%nat = Some item
    /\ Client.category item = "Bottoms"%string.
Proof.
  destruct (proj1 lower_case_columns_reach_record Client.initial sampleFile 7%nat 1%nat
              "Category"%string
              ["Chino"; "Bottoms"; "Sampling"; "40"; "0"]%string "Bottoms"%string)
    as (item & Hitem & _ & Hcat & _); try reflexivity.
  - apply (bool_decide_unpack _). vm_compute. reflexivity.
  - exists item. split; [exact Hitem | apply Hcat; reflexivity].
Defined.

(** ** Uploads, one after another *)

(** X4. A successful upload decides the records and the error message on
    its own: whatever was uploaded before it, with or without success, the
    state after it is the state it would give without the earlier upload.
    It loads one record per data line and clears the message. *)
Theorem last_upload_wins :
  (forall s f1 f2,
     Papa.errors (Papa.parse transformHeader f2) = [] ->
     Client.onDrop [f2] (Client.onDrop [f1] s) = Client.onDrop [f2] s
     /\ length (Client.items (Client.onDrop [f2] s)) = length (Papa.records f2)
     /\ Client.error (Client.onDrop [f2] s) = None)
  /\ (forall s f1 f2,
     Papa.errors (Papa.parse transformHeader f2) = [] ->
     Internal.onDrop [f2] (Internal.onDrop [f1] s) = Internal.onDrop [f2] s
     /\ length (Internal.items (Internal.onDrop [f2] s)) = length (Papa.records f2)
     /\ Internal.error (Internal.onDrop [f2] s) = None).
Proof.
  split; intros s f1 f2 H2.
  - unfold Client.onDrop, Client.complete. rewrite H2. simpl.
    split; [|split; [|reflexivity]].
    + destruct (0 <? _)%nat; reflexivity.
    + rewrite length_imap. apply length_map.
  - unfold Internal.onDrop, Internal.complete. rewrite H2. simpl.
    split; [|split; [|reflexivity]].
    + destruct (0 <? _)%nat; reflexivity.
    + rewrite length_imap. apply length_map.
Qed.

Lemma last_upload_wins_witness :
  Client.onDrop [sampleFile] (Client.onDrop [brokenFile] Client.initial)
  = Client.onDrop [sampleFile] Client.initial
  /\ length (Client.items (Client.onDrop [sampleFile] Client.initial))
     = length (Papa.records sampleFile)
  /\ Client.error (Client.onDrop [sampleFile] Client.initial) = None.
Proof.
  apply (proj1 last_upload_wins Client.initial brokenFile sampleFile). reflexivity.
Defined.

(** ** The options of the two filters *)

Lemma has_spec set x : JSSet.has set x = true <-> In x set.
Proof.
  unfold JSSet.has. rewrite existsb_exists. split.
  - intros (y & Hy & E). apply String.eqb_eq in E. subst. exact Hy.
  - intros H. exists x. split; [exact H | apply String.eqb_refl].
Qed.

Lemma has_app set x y :
  JSSet.has (set ++ [x]) y = JSSet.has set y || String.eqb x y.
Proof.
  unfold JSSet.has. rewrite existsb_app. simpl. rewrite orb_false_r.
  f_equal. apply String.eqb_sym.
Qed.

Lemma filter_filter_and {A} (f g : A -> bool) (l : list A) :
  List.filter f (List.filter g l) = List.filter (fun x => g x && f x) l.
Proof.
  induction l as [|x l IH]; simpl; [reflexivity|].
  destruct (g x); simpl; [destruct (f x)|]; rewrite IH; reflexivity.
Qed.

Lemma set_from_first_occurrences acc values :
  foldl JSSet.add acc values
  = acc ++ List.filter (fun y => negb (JSSet.has acc y)) (first_occurrences values).
Proof.
  revert acc. induction values as [|x values IH]; intros acc; simpl.
  - rewrite app_nil_r. reflexivity.
  - rewrite IH. unfold JSSet.add. rewrite filter_filter_and.
    destruct (JSSet.has acc x) eqn:Hx; simpl.
    + f_equal. apply List.filter_ext. intros y.
      destruct (String.eqb_spec x y) as [<-|]; simpl; [rewrite Hx|]; reflexivity.
    + rewrite <- app_assoc. simpl. do 2 f_equal. apply List.filter_ext. intros y.
      rewrite has_app, negb_orb. apply andb_comm.
Qed.

Lemma set_new_first_occurrences values : JSSet.new values = first_occurrences values.
Proof.
  unfold JSSet.new. rewrite set_from_first_occurrences. simpl.
  induction (first_occurrences values) as [|x l IH]; simpl; [|rewrite IH]; reflexivity.
Qed.

Lemma first_occurrences_In l x : In x (first_occurrences l) <-> In x l.
Proof.
  induction l as [|y l IH]; simpl; [reflexivity|].
  rewrite filter_In, IH, negb_true_iff. split.
  - tauto.
  - intros [->|H]; [left; reflexivity|].
    destruct (String.eqb_spec y x) as [->|]; [left | right]; auto.
Qed.

Lemma first_occurrences_NoDup l : NoDup (first_occurrences l).
Proof.
  induction l as [|y l IH]; simpl; [apply NoDup_nil_2|].
  apply NoDup_cons. split.
  - rewrite list_elem_of_In, filter_In, String.eqb_refl. intros [_ H]. discriminate.
  - apply sublist_NoDup with (l2 := first_occurrences l); [exact IH|].
    apply filter_is_sublist.
Qed.

Lemma In_map_field {A} (f : A -> string) (l : list A) c :
  In c (map f l) <-> exists item, In item l /\ f item = c.
Proof. rewrite in_map_iff. split; intros (item & H1 & H2); exists item; auto. Qed.

(** X5. The category and status options are the distinct categories and
    statuses of all loaded records (filtered out or not), each once, in the
    order of their first occurrence in the batch, in both variants. *)
Theorem filter_options_exact :
  (forall s,
     ClientView.categories s = first_occurrences (map Client.category (Client.items s))
     /\ ClientView.statuses s = first_occurrences (map Client.status (Client.items s))
     /\ NoDup (ClientView.categories s) /\ NoDup (ClientView.statuses s)
     /\ (forall c, In c (ClientView.categories s)
                   <-> exists item, In item (Client.items s) /\ Client.category item = c)
     /\ (forall c, In c (ClientView.statuses s)
                   <-> exists item, In item (Client.items s) /\ Client.status item = c))
  /\ (forall s,
     InternalView.categories s
     = first_occurrences (map Internal.category (Internal.items s))
     /\ InternalView.statuses s
        = first_occurrences (map Internal.status (Internal.items s))
     /\ NoDup (InternalView.categories s) /\ NoDup (InternalView.statuses s)
     /\ (forall c, In c (InternalView.categories s)
                   <-> exists item, In item (Internal.items s)
                                    /\ Internal.category item = c)
     /\ (forall c, In c (InternalView.statuses s)
                   <-> exists item, In item (Internal.items s)
                                    /\ Internal.status item = c)).
Proof.
  split; intros s.
  - unfold ClientView.categories, ClientView.statuses.
    rewrite !set_new_first_occurrences.
    repeat split; try apply first_occurrences_NoDup;
      rewrite first_occurrences_In, In_map_field; auto.
  - unfold InternalView.categories, InternalView.statuses.
    rewrite !set_new_first_occurrences.
    repeat split; try apply first_occurrences_NoDup;
      rewrite first_occurrences_In, In_map_field; auto.
Qed.

Example filter_options_samples :
  let s := Client.run [Client.Drop [sampleFile]; Client.Search "zzz"] Client.initial in
  ClientView.categories s = ["Tops"; "Bottoms"]%string
  /\ ClientView.statuses s = ["In Production"; "Sampling"]%string
  /\ ClientView.categories Client.initial = []
  /\ JSSet.new ["b"; "a"; "b"; "c"; "a"]%string = ["b"; "a"; "c"]%string.
Proof. repeat split. Qed.

(** X6. Every option offered by a filter selects something: with an empty
    search term and the other filter on "All", choosing an offered category
    (or an offered status) leaves at least one record, in both variants. *)
Theorem offered_option_selects_a_record :
  (forall s c,
     (In c (ClientView.categories s) ->
      Client.filteredItems
        (Client.setCategoryFilter c
           (Client.setStatusFilter "All" (Client.setSearchTerm "" s))) <> [])
     /\ (In c (ClientView.statuses s) ->
         Client.filteredItems
           (Client.setStatusFilter c
              (Client.setCategoryFilter "All" (Client.setSearchTerm "" s))) <> []))
  /\ (forall s c,
     (In c (InternalView.categories s) ->
      Internal.filteredItems
        (Internal.setCategoryFilter c
           (Internal.setStatusFilter "All" (Internal.setSearchTerm "" s))) <> [])
     /\ (In c (InternalView.statuses s) ->
         Internal.filteredItems
           (Internal.setStatusFilter c
              (Internal.setCategoryFilter "All" (Internal.setSearchTerm "" s))) <> [])).
Proof.
  split; intros s c; split; intros Hc.
  - unfold ClientView.categories in Hc.
    rewrite set_new_first_occurrences, first_occurrences_In, In_map_field in Hc.
    destruct Hc as (item & Hitem & <-).
    assert (In item (Client.filteredItems
                       (Client.setCategoryFilter (Client.category item)
                          (Client.setStatusFilter "All" (Client.setSearchTerm "" s))))) as H.
    { apply filter_In. split; [exact Hitem|]. unfold Client.matches, JS.strictEq. simpl.
      rewrite search_empty, String.eqb_refl, orb_true_r. reflexivity. }
    intros E. rewrite E in H. exact H.
  - unfold ClientView.statuses in Hc.
    rewrite set_new_first_occurrences, first_occurrences_In, In_map_field in Hc.
    destruct Hc as (item & Hitem & <-).
    assert (In item (Client.filteredItems
                       (Client.setStatusFilter (Client.status item)
                          (Client.setCategoryFilter "All" (Client.setSearchTerm "" s))))) as H.
    { apply filter_In. split; [exact Hitem|]. unfold Client.matches, JS.strictEq. simpl.
      rewrite search_empty, String.eqb_refl, orb_true_r. reflexivity. }
    intros E. rewrite E in H. exact H.
  - unfold InternalView.categories in Hc.
    rewrite set_new_first_occurrences, first_occurrences_In, In_map_field in Hc.
    destruct Hc as (item & Hitem & <-).
    assert (In item (Internal.filteredItems
                       (Internal.setCategoryFilter (Internal.category item)
                          (Internal.setStatusFilter "All"
                             (Internal.setSearchTerm "" s))))) as H.
    { apply filter_In. split; [exact Hitem|]. unfold Internal.matches, JS.strictEq. simpl.
      rewrite search_empty, String.eqb_refl, orb_true_r. reflexivity. }
    intros E. rewrite E in H. exact H.
  - unfold InternalView.statuses in Hc.
    rewrite set_new_first_occurrences, first_occurrences_In, In_map_field in Hc.
    destruct Hc as (item & Hitem & <-).
    assert (In item (Internal.filteredItems
                       (Internal.setStatusFilter (Internal.status item)
                          (Internal.setCategoryFilter "All"
                             (Internal.setSearchTerm "" s))))) as H.
    { apply filter_In. split; [exact Hitem|]. unfold Internal.matches, JS.strictEq. simpl.
      rewrite search_empty, String.eqb_refl, orb_true_r. reflexivity. }
    intros E. rewrite E in H. exact H.
Qed.

Lemma offered_option_selects_a_record_witness :
  let s := Client.run [Client.Drop [sampleFile]; Client.Search "zzz"] Client.initial in
  Client.filteredItems
    (Client.setCategoryFilter "Bottoms"
       (Client.setStatusFilter "All" (Client.setSearchTerm "" s))) <> [].
Proof.
  intros s. apply (proj1 (proj1 offered_option_selects_a_record s "Bottoms"%string)).
  vm_compute. right. left. reflexivity.
Defined.

(** ** Pages *)

Lemma pages_concat {A} (l : list A) (d m : nat) :
  concat (map (fun k => take d (drop (k * d) l)) (seq 0 m)) = take (m * d) l.
Proof.
  induction m as [|m IH]; [reflexivity|].
  rewrite seq_S, map_app, concat_app, IH. simpl. rewrite app_nil_r.
  rewrite take_take_drop. f_equal. lia.
Qed.

Lemma ceilDiv_nonneg n d : 0 < d -> 0 <= n -> 0 <= JS.ceilDiv n d.
Proof. intros Hd Hn. pose proof (ceilDiv_spec n d Hd). nia. Qed.

Lemma pages_cover {A} (l : list A) (d : Z) :
  0 < d ->
  concat (map (fun p => JS.slice l ((p - 1) * d) ((p - 1) * d + d))
            (seqZ 1 (JS.ceilDiv (Z.of_nat (length l)) d))) = l.
Proof.
  intros Hd. set (n := Z.of_nat (length l)).
  pose proof (ceilDiv_spec n d Hd) as Hspec.
  pose proof (ceilDiv_nonneg n d Hd ltac:(lia)) as Hpos.
  unfold seqZ. change (?f <$> ?x) with (map f x). rewrite map_map.
  rewrite (map_ext _ (fun k => take (Z.to_nat d) (drop (k * Z.to_nat d) l))).
  - rewrite pages_concat. apply take_ge. subst n. nia.
  - intros k. rewrite slice_window by nia. do 2 f_equal. nia.
Qed.

(** X7. The pages 1 to totalPages cut the filtered list into consecutive
    pieces: shown one after another they are the filtered list, every record
    once and in order, in both variants. *)
Theorem pages_cover_filtered_list :
  (forall s,
     concat (map (fun p => Client.displayedItems (Client.setCurrentPage p s))
               (seqZ 1 (Client.totalPages s))) = Client.filteredItems s)
  /\ (forall s,
     concat (map (fun p => Internal.displayedItems (Internal.setCurrentPage p s))
               (seqZ 1 (Internal.totalPages s))) = Internal.filteredItems s).
Proof.
  split; intros s.
  - apply (pages_cover (Client.filteredItems s) 9). lia.
  - apply (pages_cover (Internal.filteredItems s) 10). lia.
Qed.

Lemma page_size_facts {A} (l : list A) (d cp : Z) :
  0 < d -> 1 <= cp <= JS.ceilDiv (Z.of_nat (length l)) d ->
  let n := Z.of_nat (length l) in
  let shown := Z.of_nat (length (JS.slice l ((cp - 1) * d) ((cp - 1) * d + d))) in
  1 <= shown <= d
  /\ (cp < JS.ceilDiv n d -> shown = d)
  /\ shown = Z.min ((cp - 1) * d + d) n - ((cp - 1) * d + 1) + 1
  /\ 1 <= (cp - 1) * d + 1 <= Z.min ((cp - 1) * d + d) n
  /\ Z.min ((cp - 1) * d + d) n <= n.
Proof.
  intros Hd Hcp n shown. subst shown.
  pose proof (ceilDiv_spec n d Hd) as Hspec. fold n in Hcp.
  rewrite slice_window_length by nia. fold n.
  repeat split; try nia.
Qed.

(** X8. On every page from 1 to totalPages the list shows at least one and
    at most pageSize records, exactly pageSize on every page but the last,
    and the text "Showing X-Y of Z" counts them: Y - X + 1 records with
    1 <= X <= Y <= Z. *)
Theorem valid_page_is_full_and_counted :
  (forall s, 1 <= Client.currentPage s <= Client.totalPages s ->
     let shown := Z.of_nat (length (Client.displayedItems s)) in
     1 <= shown <= 9
     /\ (Client.currentPage s < Client.totalPages s -> shown = 9)
     /\ shown = snd (Client.showing s) - fst (Client.showing s) + 1
     /\ 1 <= fst (Client.showing s) <= snd (Client.showing s)
     /\ snd (Client.showing s) <= Z.of_nat (length (Client.filteredItems s)))
  /\ (forall s, 1 <= Internal.currentPage s <= Internal.totalPages s ->
     let shown := Z.of_nat (length (Internal.displayedItems s)) in
     1 <= shown <= 10
     /\ (Internal.currentPage s < Internal.totalPages s -> shown = 10)
     /\ shown = snd (Internal.showing s) - fst (Internal.showing s) + 1
     /\ 1 <= fst (Internal.showing s) <= snd (Internal.showing s)
     /\ snd (Internal.showing s) <= Z.of_nat (length (Internal.filteredItems s))).
Proof.
  split; intros s Hcp.
  - exact (page_size_facts (Client.filteredItems s) 9 (Client.currentPage s)
             ltac:(lia) Hcp).
  - exact (page_size_facts (Internal.filteredItems s) 10 (Internal.currentPage s)
             ltac:(lia) Hcp).
Qed.

Lemma valid_page_is_full_and_counted_witness :
  let s := Internal.run [Internal.Drop [sampleFile]; Internal.NextPage] Internal.initial in
  let shown := Z.of_nat (length (Internal.displayedItems s)) in
  1 <= shown <= 10
  /\ (Internal.currentPage s < Internal.totalPages s -> shown = 10)
  /\ shown = snd (Internal.showing s) - fst (Internal.showing s) + 1
  /\ 1 <= fst (Internal.showing s) <= snd (Internal.showing s)
  /\ snd (Internal.showing s) <= Z.of_nat (length (Internal.filteredItems s)).
Proof.
  intros s. apply (proj2 valid_page_is_full_and_counted s).
  vm_compute. split; discriminate.
Defined.

Lemma slice_past_end {A} (l : list A) (d cp : Z) :
  0 < d -> JS.ceilDiv (Z.of_nat (length l)) d < cp ->
  JS.slice l ((cp - 1) * d) ((cp - 1) * d + d) = [].
Proof.
  intros Hd Hcp. pose proof (ceilDiv_spec (Z.of_nat (length l)) d Hd) as Hspec.
  pose proof (ceilDiv_nonneg (Z.of_nat (length l)) d Hd ltac:(lia)) as Hpos.
  apply length_zero_iff_nil, Nat2Z.inj. rewrite slice_window_length by nia. nia.
Qed.

(** X9. On a page past the last one the list is empty, and with at most
    one page neither page button changes anything.  So when a filter shrinks
    the result to a single page while a later page is current, the view
    shows no record, though records match, until a filter changes again. *)
Theorem page_past_the_end_is_empty_and_stuck :
  (forall s,
     (Client.totalPages s < Client.currentPage s -> Client.displayedItems s = [])
     /\ (Client.totalPages s <= 1 ->
         Client.handle Client.PrevPage s = s /\ Client.handle Client.NextPage s = s))
  /\ (forall s,
     (Internal.totalPages s < Internal.currentPage s -> Internal.displayedItems s = [])
     /\ (Internal.totalPages s <= 1 ->
         Internal.handle Internal.PrevPage s = s
         /\ Internal.handle Internal.NextPage s = s)).
Proof.
  split; intros s; split.
  - intros H. apply (slice_past_end (Client.filteredItems s) 9); [lia | exact H].
  - intros H. simpl. unfold Client.prevClick, Client.nextClick.
    destruct (Z.ltb_spec 1 (Client.totalPages s)); [lia|]. split; reflexivity.
  - intros H. apply (slice_past_end (Internal.filteredItems s) 10); [lia | exact H].
  - intros H. simpl. unfold Internal.prevClick, Internal.nextClick.
    destruct (Z.ltb_spec 1 (Internal.totalPages s)); [lia|]. split; reflexivity.
Qed.

Lemma page_past_the_end_is_empty_and_stuck_witness :
  let s := Client.run [Client.Drop [sampleFile]; Client.NextPage;
                       Client.SelectCategory "Tops"] Client.initial in
  length (Client.filteredItems s) = 7%nat
  /\ Client.displayedItems s = []
  /\ Client.handle Client.PrevPage s = s /\ Client.handle Client.NextPage s = s.
Proof.
  intros s. split; [reflexivity|].
  destruct (proj1 page_past_the_end_is_empty_and_stuck s) as [Hempty Hstuck].
  split.
  - apply Hempty. vm_compute. reflexivity.
  - apply Hstuck. vm_compute. discriminate.
Defined.

Lemma client_setCurrentPage_same s : Client.setCurrentPage (Client.currentPage s) s = s.
Proof. destruct s; reflexivity. Qed.

Lemma internal_setCurrentPage_same s :
  Internal.setCurrentPage (Internal.currentPage s) s = s.
Proof. destruct s; reflexivity. Qed.

(** X10. The page buttons undo each other inside the page range: next then
    previous returns to the state before when a next page exists, previous
    then next when a previous page exists.  And when more than one page
    exists, next always ends on a page from 1 to totalPages, also from a
    page past the last one. *)
Theorem page_buttons_round_trip :
  (forall s,
     (1 <= Client.currentPage s < Client.totalPages s ->
      Client.handle Client.PrevPage (Client.handle Client.NextPage s) = s)
     /\ (1 < Client.currentPage s <= Client.totalPages s ->
         Client.handle Client.NextPage (Client.handle Client.PrevPage s) = s)
     /\ (1 <= Client.currentPage s -> 1 < Client.totalPages s ->
         1 <= Client.currentPage (Client.handle Client.NextPage s)
              <= Client.totalPages s))
  /\ (forall s,
     (1 <= Internal.currentPage s < Internal.totalPages s ->
      Internal.handle Internal.PrevPage (Internal.handle Internal.NextPage s) = s)
     /\ (1 < Internal.currentPage s <= Internal.totalPages s ->
         Internal.handle Internal.NextPage (Internal.handle Internal.PrevPage s) = s)
     /\ (1 <= Internal.currentPage s -> 1 < Internal.totalPages s ->
         1 <= Internal.currentPage (Internal.handle Internal.NextPage s)
              <= Internal.totalPages s)).
Proof.
  split; intros s; simpl; (split; [|split]).
  - intros H. unfold Client.nextClick.
    destruct (Z.ltb_spec 1 (Client.totalPages s)); [|lia].
    destruct (Z.eqb_spec (Client.currentPage s) (Client.totalPages s)); [lia|]. simpl.
    unfold Client.prevClick.
    change (Client.totalPages (Client.setCurrentPage _ s)) with (Client.totalPages s).
    destruct (Z.ltb_spec 1 (Client.totalPages s)); [|lia]. simpl.
    destruct (Z.eqb_spec (Z.min (Client.currentPage s + 1) (Client.totalPages s)) 1);
      [lia|]. simpl.
    rewrite <- (client_setCurrentPage_same s) at 3. destruct s; simpl in *.
    unfold Client.setCurrentPage; simpl. f_equal. lia.
  - intros H. unfold Client.prevClick.
    destruct (Z.ltb_spec 1 (Client.totalPages s)); [|lia].
    destruct (Z.eqb_spec (Client.currentPage s) 1); [lia|]. simpl.
    unfold Client.nextClick.
    change (Client.totalPages (Client.setCurrentPage _ s)) with (Client.totalPages s).
    destruct (Z.ltb_spec 1 (Client.totalPages s)); [|lia]. simpl.
    destruct (Z.eqb_spec (Z.max (Client.currentPage s - 1) 1) (Client.totalPages s));
      [lia|]. simpl.
    rewrite <- (client_setCurrentPage_same s) at 3. destruct s; simpl in *.
    unfold Client.setCurrentPage; simpl. f_equal. lia.
  - intros H1 H2. unfold Client.nextClick.
    destruct (Z.ltb_spec 1 (Client.totalPages s)); [|lia].
    destruct (Z.eqb_spec (Client.currentPage s) (Client.totalPages s)); simpl; lia.
  - intros H. unfold Internal.nextClick.
    destruct (Z.ltb_spec 1 (Internal.totalPages s)); [|lia].
    destruct (Z.eqb_spec (Internal.currentPage s) (Internal.totalPages s)); [lia|]. simpl.
    unfold Internal.prevClick.
    change (Internal.totalPages (Internal.setCurrentPage _ s)) with (Internal.totalPages s).
    destruct (Z.ltb_spec 1 (Internal.totalPages s)); [|lia]. simpl.
    destruct (Z.eqb_spec (Z.min (Internal.currentPage s + 1) (Internal.totalPages s)) 1);
      [lia|]. simpl.
    rewrite <- (internal_setCurrentPage_same s) at 3. destruct s; simpl in *.
    unfold Internal.setCurrentPage; simpl. f_equal. lia.
  - intros H. unfold Internal.prevClick.
    destruct (Z.ltb_spec 1 (Internal.totalPages s)); [|lia].
    destruct (Z.eqb_spec (Internal.currentPage s) 1); [lia|]. simpl.
    unfold Internal.nextClick.
    change (Internal.totalPages (Internal.setCurrentPage _ s)) with (Internal.totalPages s).
    destruct (Z.ltb_spec 1 (Internal.totalPages s)); [|lia]. simpl.
    destruct (Z.eqb_spec (Z.max (Internal.currentPage s - 1) 1) (Internal.totalPages s));
      [lia|]. simpl.
    rewrite <- (internal_setCurrentPage_same s) at 3. destruct s; simpl in *.
    unfold Internal.setCurrentPage; simpl. f_equal. lia.
  - intros H1 H2. unfold Internal.nextClick.
    destruct (Z.ltb_spec 1 (Internal.totalPages s)); [|lia].
    destruct (Z.eqb_spec (Internal.currentPage s) (Internal.totalPages s)); simpl; lia.
Qed.

Lemma page_buttons_round_trip_witness :
  let s := Client.run [Client.Drop [sampleFile]] Client.initial in
  Client.handle Client.PrevPage (Client.handle Client.NextPage s) = s.
Proof.
  intros s. apply (proj1 (proj1 page_buttons_round_trip s)).
  vm_compute. split; [discriminate | reflexivity].
Defined.

(** ** Searching *)

Lemma string_app_assoc (a b c : string) :
  ((a +:+ b) +:+ c = a +:+ (b +:+ c))%string.
Proof.
  induction a as [|x a IH]; [reflexivity|].
  change (String x ((a +:+ b) +:+ c) = String x (a +:+ b +:+ c)).
  f_equal. exact IH.
Qed.

Lemma includes_trans a b c :
  JS.includes a b = true -> JS.includes b c = true -> JS.includes a c = true.
Proof.
  rewrite !includes_spec. intros (p & q & ->) (p' & q' & ->).
  exists (p +:+ p')%string, (q' +:+ q)%string.
  rewrite !string_app_assoc. reflexivity.
Qed.

Lemma filter_weaker_sublist {A} (f g : A -> bool) (l : list A) :
  (forall x, f x = true -> g x = true) ->
  sublist (List.filter f l) (List.filter g l).
Proof.
  intros H. induction l as [|x l IH]; simpl; [constructor|].
  destruct (f x) eqn:Hf.
  - rewrite (H x Hf). apply sublist_skip, IH.
  - destruct (g x); [apply sublist_cons|]; exact IH.
Qed.

Lemma client_matches_longer_term s t1 t2 item :
  lower_contains t2 t1 ->
  Client.matches (Client.setSearchTerm t2 s) item = true ->
  Client.matches (Client.setSearchTerm t1 s) item = true.
Proof.
  intros Ht. apply search_matches in Ht. unfold Client.matches. simpl.
  rewrite !andb_true_iff. intros [[H1 H2] H3]. repeat split; try assumption.
  exact (includes_trans _ _ _ H1 Ht).
Qed.

Lemma internal_matches_longer_term s t1 t2 item :
  lower_contains t2 t1 ->
  Internal.matches (Internal.setSearchTerm t2 s) item = true ->
  Internal.matches (Internal.setSearchTerm t1 s) item = true.
Proof.
  intros Ht. apply search_matches in Ht. unfold Internal.matches. simpl.
  rewrite !andb_true_iff. intros [[H1 H2] H3]. repeat split; try assumption.
  exact (includes_trans _ _ _ H1 Ht).
Qed.

(** X11. A search term narrows the result of every term it contains after
    lower-casing: when the lower case of the new term contains the lower
    case of the old one, the new filtered list is a subsequence of the old
    one.  Between ASCII terms this is so whenever the old term occurs in the
    new one up to the case of letters, so typing more ASCII text into the
    search box only narrows the result.  Two terms with the same lower case
    give the same filtered list.  In both variants. *)
Theorem longer_search_term_narrows :
  (forall s t1 t2,
     (lower_contains t2 t1 ->
      sublist (Client.filteredItems (Client.setSearchTerm t2 s))
        (Client.filteredItems (Client.setSearchTerm t1 s)))
     /\ (isAscii t1 = true -> isAscii t2 = true -> contains_ignoring_case t2 t1 ->
         sublist (Client.filteredItems (Client.setSearchTerm t2 s))
           (Client.filteredItems (Client.setSearchTerm t1 s)))
     /\ (JS.toLowerCase t1 = JS.toLowerCase t2 ->
         Client.filteredItems (Client.setSearchTerm t2 s)
         = Client.filteredItems (Client.setSearchTerm t1 s)))
  /\ (forall s t1 t2,
     (lower_contains t2 t1 ->
      sublist (Internal.filteredItems (Internal.setSearchTerm t2 s))
        (Internal.filteredItems (Internal.setSearchTerm t1 s)))
     /\ (isAscii t1 = true -> isAscii t2 = true -> contains_ignoring_case t2 t1 ->
         sublist (Internal.filteredItems (Internal.setSearchTerm t2 s))
           (Internal.filteredItems (Internal.setSearchTerm t1 s)))
     /\ (JS.toLowerCase t1 = JS.toLowerCase t2 ->
         Internal.filteredItems (Internal.setSearchTerm t2 s)
         = Internal.filteredItems (Internal.setSearchTerm t1 s))).
Proof.
  split; intros s t1 t2; (split; [|split]).
  - intros Ht. apply filter_weaker_sublist. intros item.
    apply client_matches_longer_term, Ht.
  - intros H1 H2 Ht. apply filter_weaker_sublist. intros item.
    apply client_matches_longer_term, lower_contains_ascii; assumption.
  - intros E. apply List.filter_ext. intros item. unfold Client.matches. simpl.
    rewrite E. reflexivity.
  - intros Ht. apply filter_weaker_sublist. intros item.
    apply internal_matches_longer_term, Ht.
  - intros H1 H2 Ht. apply filter_weaker_sublist. intros item.
    apply internal_matches_longer_term, lower_contains_ascii; assumption.
  - intros E. apply List.filter_ext. intros item. unfold Internal.matches. simpl.
    rewrite E. reflexivity.
Qed.

Lemma longer_search_term_narrows_witness :
  let s := Client.run [Client.Drop [sampleFile]] Client.initial in
  let u := Client.run [Client.Drop [unicodeFile]] Client.initial in
  sublist (Client.filteredItems (Client.setSearchTerm "CAFÉ" u))
    (Client.filteredItems (Client.setSearchTerm "caf" u))
  /\ sublist (Client.filteredItems (Client.setSearchTerm "Linen SH" s))
       (Client.filteredItems (Client.setSearchTerm "sh" s))
  /\ Client.filteredItems (Client.setSearchTerm "SHIRT" s)
     = Client.filteredItems (Client.setSearchTerm "shirt" s).
Proof.
  intros s u.
  destruct (proj1 longer_search_term_narrows u "caf"%string "CAFÉ"%string)
    as (Hlower & _ & _).
  destruct (proj1 longer_search_term_narrows s "sh"%string "Linen SH"%string)
    as (_ & Hascii & _).
  destruct (proj1 longer_search_term_narrows s "shirt"%string "SHIRT"%string)
    as (_ & _ & Hsame).
  split; [|split].
  - apply Hlower. exists ""%string, "é"%string. vm_compute. reflexivity.
  - apply Hascii; [reflexivity | reflexivity |].
    exists "Linen "%string, "SH"%string, ""%string. split; vm_compute; reflexivity.
  - apply Hsame. vm_compute. reflexivity.
Defined.

(** Typing a letter in front of a capital sigma can add records: alone it is
    lower-cased as a medial sigma, after a letter as a final one. *)
Example search_samples :
  let s := Client.run [Client.Drop [sampleFile]] Client.initial in
  let u := Client.run [Client.Drop [unicodeFile]] Client.initial in
  map Client.name (Client.filteredItems (Client.setSearchTerm "sh" s))
  = ["Oxford Shirt"; "Linen Shirt"; "Denim Short"]%string
  /\ map Client.name (Client.filteredItems (Client.setSearchTerm "Linen SH" s))
     = ["Linen Shirt"]%string
  /\ map Client.name (Client.filteredItems (Client.setSearchTerm " shirt" s))
     = ["Oxford Shirt"; "Linen Shirt"]%string
  /\ map Client.name (Client.filteredItems (Client.setSearchTerm "shirt " s)) = []
  /\ map Client.name (Client.filteredItems (Client.setSearchTerm "Σ" u)) = []
  /\ map Client.name (Client.filteredItems (Client.setSearchTerm "ΑΣ" u))
     = ["ΑΣ"]%string.
Proof. repeat split; vm_compute; reflexivity. Qed.

(** ** The header transform *)

Lemma transformHeader_ascii h : isAscii h = true -> isAscii (transformHeader h) = true.
Proof.
  induction h as [|c h IH]; [reflexivity|]. intros H.
  rewrite transformHeader_cons by exact H.
  pose proof (IH (isAscii_cons _ _ H)) as IH'.
  destruct (asciiWhiteSpace c); [exact IH'|].
  simpl in H |- *. apply andb_true_iff in H as [Hc _]. apply N.ltb_lt in Hc.
  rewrite IH', andb_true_r. apply N.ltb_lt, asciiLowerChar_ascii, Hc.
Qed.

Lemma transformHeader_no_white_space h :
  isAscii h = true -> hasWhiteSpace (transformHeader h) = false.
Proof.
  induction h as [|c h IH]; [reflexivity|]. intros H.
  rewrite transformHeader_cons by exact H.
  pose proof (IH (isAscii_cons _ _ H)) as IH'.
  destruct (asciiWhiteSpace c) eqn:Hc; [exact IH'|].
  simpl. rewrite asciiWhiteSpace_lower, Hc, IH'. reflexivity.
Qed.

Lemma transformHeader_fixed h :
  isAscii h = true -> hasUpper h = false -> hasWhiteSpace h = false ->
  transformHeader h = h.
Proof.
  induction h as [|c h IH]; [reflexivity|]. intros H. simpl.
  rewrite !orb_false_iff. intros [Hu Hus] [Hw Hws].
  rewrite transformHeader_cons, Hw, IH by (assumption || exact (isAscii_cons _ _ H)).
  unfold asciiLowerChar. rewrite Hu. reflexivity.
Qed.

Lemma transformHeader_length h :
  isAscii h = true -> (String.length (transformHeader h) <= String.length h)%nat.
Proof.
  induction h as [|c h IH]; [reflexivity|]. intros H.
  rewrite transformHeader_cons by exact H.
  pose proof (IH (isAscii_cons _ _ H)). destruct (asciiWhiteSpace c); simpl; lia.
Qed.

(** X12. The key made from a header never has an ASCII capital letter.  On
    ASCII headers the transform is a projection onto the strings without
    capital letters and white space: its result is ASCII and has neither, it
    leaves exactly those strings unchanged (so applying it twice is applying
    it once), and it never lengthens a header.  Beyond ASCII it lower-cases
    accented letters (É), strips the no-break space (U+00A0) and the em
    space (U+2003), and lengthens a header that has a capital I with dot
    above (U+0130), whose lower case is two code points. *)
Theorem transformHeader_projection :
  (forall h, hasUpper (transformHeader h) = false)
  /\ (forall h, isAscii h = true ->
        isAscii (transformHeader h) = true
        /\ hasWhiteSpace (transformHeader h) = false
        /\ (transformHeader h = h <-> hasUpper h = false /\ hasWhiteSpace h = false)
        /\ transformHeader (transformHeader h) = transformHeader h
        /\ (String.length (transformHeader h) <= String.length h)%nat)
  /\ transformHeader "CAFÉ" = "café"%string
  /\ transformHeader
       (JS.CodePointsToString [JS.Cp 0x61; JS.Cp 0xA0; JS.Cp 0x62; JS.Cp 0x2003; JS.Cp 0x63])
     = "abc"%string
  /\ JS.StringToCodePoints (transformHeader (JS.CodePointsToString [JS.Cp 0x130]))
     = [JS.Cp 0x69; JS.Cp 0x307].
Proof.
  split; [exact transformHeader_no_upper|]. split.
  - intros h Hh. split; [apply transformHeader_ascii, Hh|].
    split; [apply transformHeader_no_white_space, Hh|]. split; [|split].
    + split.
      * intros E. rewrite <- E. split;
          [apply transformHeader_no_upper | apply transformHeader_no_white_space, Hh].
      * intros [Hu Hw]. apply transformHeader_fixed; assumption.
    + apply transformHeader_fixed;
        [apply transformHeader_ascii, Hh | apply transformHeader_no_upper
        | apply transformHeader_no_white_space, Hh].
    + apply transformHeader_length, Hh.
  - repeat split; vm_compute; reflexivity.
Qed.

Lemma transformHeader_projection_witness :
  hasWhiteSpace (transformHeader "Min Order  Quantity") = false
  /\ (transformHeader "minorderquantity" = "minorderquantity"%string
      <-> hasUpper "minorderquantity" = false
          /\ hasWhiteSpace "minorderquantity" = false)
  /\ transformHeader (transformHeader "Min Order  Quantity")
     = transformHeader "Min Order  Quantity".
Proof.
  destruct (proj1 (proj2 transformHeader_projection) "Min Order  Quantity"%string)
    as (_ & Hws & _ & Hidem & _); [vm_compute; reflexivity|].
  destruct (proj1 (proj2 transformHeader_projection) "minorderquantity"%string)
    as (_ & _ & Hfix & _); [vm_compute; reflexivity|].
  split; [exact Hws|]. split; [exact Hfix | exact Hidem].
Defined.

Example transformHeader_samples :
  map transformHeader
    ["Min Order  Quantity"; " Name "; "FABRIC_Material"; "balance"; "   "]%string
  = ["minorderquantity"; "name"; "fabric_material"; "balance"; ""]%string.
Proof. vm_compute. reflexivity. Qed.

(** ** What is shown of a record *)

Lemma is_nan_Prim2SF x : PrimFloat.is_nan x = true -> Prim2SF x = S754_nan.
Proof.
  unfold PrimFloat.is_nan. rewrite FloatAxioms.eqb_spec. unfold SFeqb.
  destruct (Prim2SF x) as [s|s| |s m e] eqn:E; [| | reflexivity |];
    rewrite SFcompare_refl by discriminate; discriminate.
Qed.

Lemma ltb_zero_or_zero x : PrimFloat.ltb 0 (JS.or_zero x) = PrimFloat.ltb 0 x.
Proof.
  unfold JS.or_zero, JS.truthy.
  destruct (PrimFloat.eqb x 0) eqn:Hz; simpl.
  - apply float_eqb_zero in Hz as [-> | ->]; reflexivity.
  - destruct (PrimFloat.is_nan x) eqn:Hn; simpl; [|reflexivity].
    apply is_nan_Prim2SF in Hn. rewrite (FloatAxioms.ltb_spec 0 x), Hn. reflexivity.
Qed.

Lemma ltb_zero_nan x : PrimFloat.is_nan x = true -> PrimFloat.ltb 0 x = false.
Proof.
  intros Hn. apply is_nan_Prim2SF in Hn. rewrite FloatAxioms.ltb_spec, Hn. reflexivity.
Qed.

Lemma ltb_zero_negative x : PrimFloat.ltb x 0 = true -> PrimFloat.ltb 0 x = false.
Proof.
  rewrite !FloatAxioms.ltb_spec. change (Prim2SF 0) with (S754_zero false).
  destruct (Prim2SF x) as [s|[]| |[] m e]; simpl; intros H; try discriminate; reflexivity.
Qed.

(** X13. The client shows the balance of a record exactly when its balance
    cell parses to a number above zero: a cell that is absent or does not
    parse shows no balance, and neither does a negative one, although the
    record keeps the negative value. *)
Theorem balance_shown_iff_positive :
  forall index row,
    let item := Client.coerce index row in
    let cell := row !! "balance"%string in
    ClientView.balanceShown item = PrimFloat.ltb 0 (JS.parseFloat (JS.ToString cell))
    /\ (absent_or_unparsable JS.parseFloat cell -> ClientView.balanceShown item = false)
    /\ (forall v, cell = Some v -> PrimFloat.ltb (JS.parseFloat v) 0 = true ->
          Client.balance item = JS.parseFloat v
          /\ ClientView.balanceShown item = false).
Proof.
  intros index row item cell.
  assert (Hshown : ClientView.balanceShown item
                   = PrimFloat.ltb 0 (JS.parseFloat (JS.ToString cell))).
  { unfold ClientView.balanceShown. simpl. apply ltb_zero_or_zero. }
  split; [exact Hshown|]. rewrite Hshown. split.
  - destruct cell as [v|]; simpl; [apply ltb_zero_nan | reflexivity].
  - intros v E Hneg. subst item. simpl. fold cell. rewrite E. simpl. split.
    + apply or_zero_negative, Hneg.
    + apply ltb_zero_negative, Hneg.
Qed.

Lemma balance_shown_iff_positive_witness :
  let row : gmap string string := <["balance"%string := "-250.5"%string]> ∅ in
  Client.balance (Client.coerce 0 row) = JS.parseFloat "-250.5"
  /\ ClientView.balanceShown (Client.coerce 0 row) = false.
Proof.
  intros row.
  apply (proj2 (proj2 (balance_shown_iff_positive 0%nat row)) "-250.5"%string);
    reflexivity.
Defined.

Example balance_samples :
  map (fun v => ClientView.balanceShown
                  (Client.coerce 0 (<["balance"%string := v]> ∅)))
    ["250.50"; "0"; "-3"; "abc"; "0.001"; ""; "$5"]%string
  = [true; false; false; false; true; false; false].
Proof. reflexivity. Qed.

(** X14. A status badge has the emphasised (default) style exactly when the
    status is the string "In Production", letter for letter; every other
    status has the secondary style.  As the components pass no [className],
    the class list of every status badge ends with the word [undefined]. *)
Theorem status_badge_style :
  (forall item,
     (Client.status item = "In Production"%string
      <-> ClientView.statusBadge item = Badge.className (Some Badge.default) None)
     /\ (Client.status item <> "In Production"%string
         <-> ClientView.statusBadge item = Badge.className (Some Badge.secondary) None)
     /\ exists classes,
          ClientView.statusBadge item = (classes +:+ " undefined")%string)
  /\ (forall item,
     (Internal.status item = "In Production"%string
      <-> InternalView.statusBadge item = Badge.className (Some Badge.default) None)
     /\ (Internal.status item <> "In Production"%string
         <-> InternalView.statusBadge item = Badge.className (Some Badge.secondary) None)
     /\ exists classes,
          InternalView.statusBadge item = (classes +:+ " undefined")%string).
Proof.
  split; intros item.
  - unfold ClientView.statusBadge, JS.strictEq.
    destruct (String.eqb_spec (Client.status item) "In Production") as [E|E].
    + repeat split; try tauto; try (intros; discriminate).
      exists (Badge.baseClasses +:+ " " +:+ Badge.variantClasses Badge.default)%string.
      reflexivity.
    + repeat split; try tauto; try (intros; discriminate).
      exists (Badge.baseClasses +:+ " " +:+ Badge.variantClasses Badge.secondary)%string.
      reflexivity.
  - unfold InternalView.statusBadge, JS.strictEq.
    destruct (String.eqb_spec (Internal.status item) "In Production") as [E|E].
    + repeat split; try tauto; try (intros; discriminate).
      exists (Badge.baseClasses +:+ " " +:+ Badge.variantClasses Badge.default)%string.
      reflexivity.
    + repeat split; try tauto; try (intros; discriminate).
      exists (Badge.baseClasses +:+ " " +:+ Badge.variantClasses Badge.secondary)%string.
      reflexivity.
Qed.
